(** * SVGPhysics: a shallow embedding of [src/js/core/SVGPhysics.js]

    The facade class [SVGPhysics] drives two collaborators, Matter.js (the
    rigid-body engine) and p5 (canvas and frame loop).  This development
    embeds the code of the class: the path-string scaling, the shape cache,
    body and wall creation, the resize handler and the lifecycle methods.
    The collaborators are either parameters ([MatterLib]) or small models
    of the contract the class relies on. *)

From Stdlib Require Import ZArith QArith Qpower Ascii String DecimalString Lia.
From stdpp Require Import base list strings.

Local Open Scope Z_scope.

(** ** JavaScript numbers

    A finite JavaScript number is kept as an exact decimal
    [mant * 10 ^ expo]; every IEEE double is such a decimal, and the
    operations the class uses ([+], [-], [*], [/ 2], [Math.min],
    [Math.max]) stay inside the decimals.  Rounding to 53 bits and the
    sign of zero are not modelled: arithmetic is exact. *)
Module JSNum.

Record dec := Dec { mant : Z; expo : Z }.

Inductive num :=
| Fin (d : dec)
| PInf
| NInf
| NaN.

(** Drop trailing decimal zeros of the mantissa. *)
Fixpoint strip10 (fuel : nat) (m e : Z) : dec :=
  match fuel with
  | O => Dec m e
  | S fuel' =>
      if m mod 10 =? 0 then strip10 fuel' (m / 10) (e + 1) else Dec m e
  end.

Definition norm (m e : Z) : dec :=
  if m =? 0 then Dec 0 0
  else strip10 (S (Z.to_nat (Z.log2 (Z.abs m)))) m e.

Definition of_Z (z : Z) : num := Fin (norm z 0).

(** Mantissas of two decimals over their smaller exponent. *)
Definition align (a b : dec) : Z * Z * Z :=
  let e := Z.min (expo a) (expo b) in
  (mant a * 10 ^ (expo a - e), mant b * 10 ^ (expo b - e), e).

Definition dec_add (a b : dec) : dec :=
  let '(ma, mb, e) := align a b in norm (ma + mb) e.

Definition dec_neg (a : dec) : dec := Dec (- mant a) (expo a).

Definition dec_mul (a b : dec) : dec :=
  norm (mant a * mant b) (expo a + expo b).

Definition dec_ltb (a b : dec) : bool :=
  let '(ma, mb, _) := align a b in ma <? mb.

Definition dec_sgn (a : dec) : Z := Z.sgn (mant a).

Definition neg (x : num) : num :=
  match x with
  | Fin d => Fin (dec_neg d)
  | PInf => NInf
  | NInf => PInf
  | NaN => NaN
  end.

Definition add (x y : num) : num :=
  match x, y with
  | NaN, _ | _, NaN => NaN
  | PInf, NInf | NInf, PInf => NaN
  | PInf, _ | _, PInf => PInf
  | NInf, _ | _, NInf => NInf
  | Fin a, Fin b => Fin (dec_add a b)
  end.

Definition sub (x y : num) : num := add x (neg y).

Definition inf_of_sign (s : Z) : num :=
  if s =? 0 then NaN else if 0 <? s then PInf else NInf.

Definition mul (x y : num) : num :=
  match x, y with
  | NaN, _ | _, NaN => NaN
  | Fin a, Fin b => Fin (dec_mul a b)
  | Fin a, PInf | PInf, Fin a => inf_of_sign (dec_sgn a)
  | Fin a, NInf | NInf, Fin a => inf_of_sign (- dec_sgn a)
  | PInf, PInf | NInf, NInf => PInf
  | PInf, NInf | NInf, PInf => NInf
  end.

(** [x / 2], the only division of the class. *)
Definition half (x : num) : num := mul x (Fin (Dec 5 (-1))).

(** [Math.min] and [Math.max] of two arguments. *)
Definition min (x y : num) : num :=
  match x, y with
  | NaN, _ | _, NaN => NaN
  | NInf, _ | _, NInf => NInf
  | PInf, z | z, PInf => z
  | Fin a, Fin b => if dec_ltb b a then y else x
  end.

Definition max (x y : num) : num :=
  match x, y with
  | NaN, _ | _, NaN => NaN
  | PInf, _ | _, PInf => PInf
  | NInf, z | z, NInf => z
  | Fin a, Fin b => if dec_ltb a b then y else x
  end.

End JSNum.
Export JSNum.

(** ** Strings: [parseFloat] and [String(x)] *)
Module JSString.

Definition is_digit (c : ascii) : bool :=
  ((48 <=? N_of_ascii c) && (N_of_ascii c <=? 57))%N.

Definition digit_val (c : ascii) : Z := Z.of_N (N_of_ascii c) - 48.

Fixpoint span_digits (s : string) : string * string :=
  match s with
  | String c s' =>
      if is_digit c
      then let '(d, r) := span_digits s' in (String c d, r)
      else (EmptyString, s)
  | EmptyString => (EmptyString, EmptyString)
  end.

Fixpoint digits_val (acc : Z) (s : string) : Z :=
  match s with
  | String c s' => digits_val (10 * acc + digit_val c) s'
  | EmptyString => acc
  end.

Definition slen (s : string) : Z := Z.of_nat (String.length s).

(** The exponent part [e(+|-)?digits] of a decimal literal, 0 when the
    text does not start with one. *)
Definition exponent_part (s : string) : Z :=
  match s with
  | String c t =>
      if (Ascii.eqb c "e" || Ascii.eqb c "E")%bool then
        let '(sg, t') :=
          match t with
          | String "-"%char u => (-1, u)
          | String "+"%char u => (1, u)
          | _ => (1, t)
          end in
        sg * digits_val 0 (fst (span_digits t'))
      else 0
  | EmptyString => 0
  end.

(** [parseFloat]: the longest prefix that reads as a decimal literal
    (sign, digits, fraction, exponent); [NaN] when there is none.
    Leading white space and the word [Infinity] are not modelled: the
    class only passes matches of its number pattern. *)
Definition parseFloat (s : string) : num :=
  let '(sg, s1) :=
    match s with
    | String "-"%char t => (-1, t)
    | String "+"%char t => (1, t)
    | _ => (1, s)
    end in
  let '(ip, s2) := span_digits s1 in
  let '(fp, s3) :=
    match s2 with
    | String "."%char t => span_digits t
    | _ => (EmptyString, s2)
    end in
  if (String.eqb ip EmptyString && String.eqb fp EmptyString)%bool then NaN
  else Fin (norm (sg * digits_val 0 (ip +:+ fp)) (exponent_part s3 - slen fp)).

Fixpoint zeros (n : nat) : string :=
  match n with
  | O => EmptyString
  | S n' => String "0" (zeros n')
  end.

Definition digits_of (z : Z) : string :=
  NilZero.string_of_uint (N.to_uint (Z.to_N z)).

(** Number::toString of a positive decimal [m * 10 ^ e] whose mantissa
    has no trailing zero: with [k] digits and [n = k + e], plain
    notation for [-6 < n <= 21] and exponent notation outside. *)
Definition pos_toString (m e : Z) : string :=
  let s := digits_of m in
  let k := slen s in
  let n := k + e in
  if (k <=? n) && (n <=? 21) then s +:+ zeros (Z.to_nat (n - k))
  else if (0 <? n) && (n <=? 21) then
    substring 0 (Z.to_nat n) s +:+ "." +:+
    substring (Z.to_nat n) (Z.to_nat (k - n)) s
  else if (-6 <? n) && (n <=? 0) then "0." +:+ zeros (Z.to_nat (- n)) +:+ s
  else
    let x := n - 1 in
    let sx := (if x <? 0 then "-" else "+") +:+ digits_of (Z.abs x) in
    if k =? 1 then s +:+ "e" +:+ sx
    else substring 0 1 s +:+ "." +:+ substring 1 (Z.to_nat (k - 1)) s
         +:+ "e" +:+ sx.

(** [String(x)] for a number [x]. *)
Definition toString (x : num) : string :=
  match x with
  | NaN => "NaN"
  | PInf => "Infinity"
  | NInf => "-Infinity"
  | Fin d =>
      let 'Dec m e := norm (mant d) (expo d) in
      if m =? 0 then "0"
      else if m <? 0 then "-" +:+ pos_toString (- m) e
      else pos_toString m e
  end.

End JSString.
Export JSString.

(** ** The number pattern and the global replace of [#scaleDString] *)
Module Regex.

(** The pieces a pattern such as [/(-?\d*\.?\d+)/] is made of: a
    character class taken once, optionally, any number of times, or at
    least once.  Quantifiers are greedy and give back on failure. *)
Inductive atom :=
| One (p : ascii -> bool)
| Opt (p : ascii -> bool)
| Star (p : ascii -> bool)
| Plus (p : ascii -> bool).

Definition regex := list atom.

Definition matched := option (string * string).

Definition consume (c : ascii) (r : matched) : matched :=
  match r with
  | Some (m, rest) => Some (String c m, rest)
  | None => None
  end.

Definition orelse (a b : matched) : matched :=
  match a with
  | Some _ => a
  | None => b
  end.

(** [p*] followed by the continuation [k]: the longest run first. *)
Fixpoint star (p : ascii -> bool) (k : string -> matched) (s : string)
  : matched :=
  match s with
  | String c s' =>
      if p c then orelse (consume c (star p k s')) (k s) else k s
  | EmptyString => k s
  end.

(** One attempt at the start of [s]: the matched prefix and what is
    left of [s], or [None]. *)
Fixpoint exec (r : regex) : string -> matched :=
  match r with
  | [] => fun s => Some (EmptyString, s)
  | One p :: r' => fun s =>
      match s with
      | String c s' => if p c then consume c (exec r' s') else None
      | EmptyString => None
      end
  | Opt p :: r' => fun s =>
      match s with
      | String c s' =>
          if p c then orelse (consume c (exec r' s')) (exec r' s)
          else exec r' s
      | EmptyString => exec r' s
      end
  | Star p :: r' => star p (exec r')
  | Plus p :: r' => fun s =>
      match s with
      | String c s' => if p c then consume c (star p (exec r') s') else None
      | EmptyString => None
      end
  end.

(** [s.replace(/r/g, f)]: scan from the left; a match is replaced by
    [f] of it and the scan goes on after the match, any other character
    is copied.  After an empty match the scan moves one character on. *)
Fixpoint replaceAll (fuel : nat) (r : regex) (f : string -> string)
    (s : string) : string :=
  match fuel with
  | O => s
  | S fuel' =>
      match s with
      | EmptyString =>
          match exec r s with
          | Some (m, _) => f m
          | None => EmptyString
          end
      | String c s' =>
          match exec r s with
          | Some (EmptyString, _) =>
              f EmptyString +:+ String c (replaceAll fuel' r f s')
          | Some (m, rest) => f m +:+ replaceAll fuel' r f rest
          | None => String c (replaceAll fuel' r f s')
          end
      end
  end.

(** [/(-?\d*\.?\d+)/] *)
Definition numberRe : regex :=
  [Opt (Ascii.eqb "-"); Star is_digit; Opt (Ascii.eqb "."); Plus is_digit].

End Regex.
Export Regex.

(** [#scaleDString(d, scale)]:
    [d.replace(/(-?\d*\.?\d+)/g, num => String(parseFloat(num) * scale))]. *)
Definition scaleDString (d : string) (scale : num) : string :=
  replaceAll (S (String.length d)) numberRe
    (fun n => toString (mul (parseFloat n) scale)) d.

(** ** The page: document, Matter bodies, window listeners *)

Record point := Pt { px : num; py : num }.

(** A [path] element: its [d] and [fill] attributes, [None] when the
    attribute is absent ([getAttribute] returns [null]). *)
Record PathEl := { attr_d : option string; attr_fill : option string }.

(** An element of the document: its content box and the [path] elements
    below it, in document order. *)
Record Element := {
  clientWidth : Z;
  clientHeight : Z;
  paths : list PathEl
}.

(** The document: its elements by node id, and which node each selector
    resolves to. *)
Record Document := {
  nodes : list Element;
  selectors : list (string * nat)
}.

Fixpoint assoc (sel : string) (l : list (string * nat)) : option nat :=
  match l with
  | [] => None
  | (k, v) :: l' => if String.eqb sel k then Some v else assoc sel l'
  end.

(** [document.querySelector(sel)]: the node, or [None] for [null]. *)
Definition querySelector (d : Document) (sel : string) : option nat :=
  assoc sel (selectors d).

Definition emptyElement : Element :=
  {| clientWidth := 0; clientHeight := 0; paths := [] |}.

(** The element behind a node id obtained from [querySelector]. *)
Definition elementAt (d : Document) (n : nat) : Element :=
  default emptyElement (nodes d !! n).

(** A Matter body, as far as the class reads or writes it. *)
Record MBody := {
  position : point;
  velocity : point;
  angle : num;
  angularVelocity : num;
  isStatic : bool;
  vertices : list point
}.

(** The window [keydown] listeners the class installs: the arrow function
    of [#setupDebugControls]. *)
Inductive listener := ToggleBoundingBoxes.

Record Page := {
  doc : Document;
  heap : list MBody;          (* every Matter body created, by address *)
  keydown : list listener;    (* window.addEventListener("keydown", ...) *)
  decompSet : bool;           (* window.decomp / Common.setDecomp *)
  pixelDensity : num          (* what p.pixelDensity() answers *)
}.

(** ** Configuration ([defaultConfig], [deepMerge]) *)

Record DebugCfg := { devMode : bool; showBoundingBoxes : bool }.

Record PhysicsCfg := {
  restitution : num;
  friction : num;
  vertexLimit : num;
  simplifyTolerance : num;
  minimumArea : num;
  positionIterations : num;
  velocityIterations : num
}.

Record OutlineCfg := { stroke : string; strokeWidth : num }.

Record Config := {
  scale : num;
  debug : DebugCfg;
  physics : PhysicsCfg;
  mouseStiffness : num;       (* mouseConstraint.stiffness *)
  outline : OutlineCfg
}.

(** A caller's override object: every key may be missing. *)
Record DebugOv := { ov_devMode : option bool; ov_showBoundingBoxes : option bool }.

Record PhysicsOv := {
  ov_restitution : option num;
  ov_friction : option num;
  ov_vertexLimit : option num;
  ov_simplifyTolerance : option num;
  ov_minimumArea : option num;
  ov_positionIterations : option num;
  ov_velocityIterations : option num
}.

Record OutlineOv := { ov_stroke : option string; ov_strokeWidth : option num }.

Record ConfigOv := {
  ov_scale : option num;
  ov_debug : option DebugOv;
  ov_physics : option PhysicsOv;
  ov_mouseStiffness : option (option num);  (* mouseConstraint: { stiffness } *)
  ov_outline : option OutlineOv
}.

Definition defaultConfig : Config := {|
  scale := Fin (Dec 13 (-1));
  debug := {| devMode := false; showBoundingBoxes := false |};
  physics := {|
    restitution := Fin (Dec 7 (-1));
    friction := Fin (Dec 0 0);
    vertexLimit := Fin (Dec 14 0);
    simplifyTolerance := Fin (Dec 2 (-2));
    minimumArea := Fin (Dec 5 0);
    positionIterations := Fin (Dec 3 0);
    velocityIterations := Fin (Dec 2 0) |};
  mouseStiffness := Fin (Dec 1 (-1));
  outline := {| stroke := "transparent"; strokeWidth := Fin (Dec 0 0) |}
|}.

(** [deepMerge(target, source)] on the configuration shape: a key of the
    source that holds an object is merged into the target's object, any
    other key of the source replaces the target's. *)
Definition deepMerge (target : Config) (source : ConfigOv) : Config := {|
  scale := default (scale target) (ov_scale source);
  debug :=
    match ov_debug source with
    | None => debug target
    | Some o => {|
        devMode := default (devMode (debug target)) (ov_devMode o);
        showBoundingBoxes :=
          default (showBoundingBoxes (debug target)) (ov_showBoundingBoxes o) |}
    end;
  physics :=
    match ov_physics source with
    | None => physics target
    | Some o =>
        let t := physics target in {|
        restitution := default (restitution t) (ov_restitution o);
        friction := default (friction t) (ov_friction o);
        vertexLimit := default (vertexLimit t) (ov_vertexLimit o);
        simplifyTolerance := default (simplifyTolerance t) (ov_simplifyTolerance o);
        minimumArea := default (minimumArea t) (ov_minimumArea o);
        positionIterations := default (positionIterations t) (ov_positionIterations o);
        velocityIterations := default (velocityIterations t) (ov_velocityIterations o) |}
    end;
  mouseStiffness :=
    match ov_mouseStiffness source with
    | Some (Some s) => s
    | _ => mouseStiffness target
    end;
  outline :=
    match ov_outline source with
    | None => outline target
    | Some o => {|
        stroke := default (stroke (outline target)) (ov_stroke o);
        strokeWidth := default (strokeWidth (outline target)) (ov_strokeWidth o) |}
    end
|}.

Definition noOverrides : ConfigOv := {|
  ov_scale := None; ov_debug := None; ov_physics := None;
  ov_mouseStiffness := None; ov_outline := None |}.

(** ** The Matter functions the class calls *)

(** What [Matter.Svg.pathToVertices] hands back: points, or arrays of
    points (the class flattens the latter). *)
Inductive vitem :=
| VPoint (p : point)
| VArray (ps : list point).

Record BodyOpts := { opt_restitution : num; opt_friction : num }.

(** Path sampling, hull, centroid and body construction are Matter's; the
    class is verified for any functions in their place.
    [fromVertices x y vertexSets options flagInternal removeCollinear
    minimumArea] answers [None] where Matter returns no body. *)
Class MatterLib := {
  pathToVertices : PathEl -> num -> list vitem;
  hull : list vitem -> list point;
  centre : list point -> point;
  fromVertices :
    num -> num -> list (list point) -> BodyOpts -> bool -> num -> num ->
    option MBody
}.

Definition origin : point := Pt (Fin (Dec 0 0)) (Fin (Dec 0 0)).

(** Modelled from the spec: [Matter.Bodies.rectangle(x, y, width, height,
    { isStatic })], a resting body centred at [(x, y)] with the four
    corners as vertices. *)
Definition rectangle (x y width height : num) (static : bool) : MBody :=
  let hw := half width in
  let hh := half height in
  {| position := Pt x y;
     velocity := origin;
     angle := Fin (Dec 0 0);
     angularVelocity := Fin (Dec 0 0);
     isStatic := static;
     vertices := [ Pt (sub x hw) (sub y hh); Pt (add x hw) (sub y hh);
                   Pt (add x hw) (add y hh); Pt (sub x hw) (add y hh) ] |}.

(** Modelled from the spec: [Matter.Body.setPosition(body, position)]
    moves the body, vertices included, and leaves its velocity alone. *)
Definition setPosition (b : MBody) (pos : point) : MBody :=
  let dx := sub (px pos) (px (position b)) in
  let dy := sub (py pos) (py (position b)) in
  {| position := pos;
     velocity := velocity b;
     angle := angle b;
     angularVelocity := angularVelocity b;
     isStatic := isStatic b;
     vertices := map (fun v => Pt (add (px v) dx) (add (py v) dy)) (vertices b) |}.

(** ** The instance *)

(** A cached shape: [{ hull, centroid, path2d, fill }]; [path2d] keeps the
    path data the [Path2D] was built from. *)
Record Shape := {
  sh_hull : list point;
  centroid : point;
  path2d : string;
  fill : string
}.

Record MouseConstraint := {
  mc_stiffness : num;
  mc_visible : bool;
  mc_pixelRatio : num
}.

(** [engine]: its world (bodies by address, constraints) and iterations. *)
Record Engine := {
  world_bodies : list nat;
  world_constraints : list MouseConstraint;
  eng_positionIterations : num;
  eng_velocityIterations : num
}.

Record Runner := { running : bool }.

(** The p5 instance: whether it was removed, whether it has run [setup],
    and its canvas (width, height) once one exists. *)
Record P5 := {
  removed : bool;
  started : bool;
  canvas : option (Z * Z)
}.

Definition p_width (p : P5) : num :=
  match canvas p with Some (w, _) => of_Z w | None => of_Z 100 end.

Definition p_height (p : P5) : num :=
  match canvas p with Some (_, h) => of_Z h | None => of_Z 100 end.

Record Instance := {
  config : Config;
  container : nat;                 (* node id of the container element *)
  svgSel : string;
  shapeCache : list Shape;
  bodies : list (nat * Shape);     (* [{ body, ...shape }], body by address *)
  walls : list nat;                (* wall bodies by address *)
  engine : Engine;
  runner : Runner;
  p5 : P5;
  resizeTimer : bool               (* the debounce timer [t] is pending *)
}.

Record State := { page : Page; self : Instance }.

Inductive exn :=
| Error (msg : string)
| TypeError (msg : string).

Inductive result (A : Type) :=
| Ok (a : A)
| Throw (e : exn).
Arguments Ok {A} a.
Arguments Throw {A} e.

(** What a method hands back: [undefined] or the receiver [this]. *)
Inductive retval := RetUndefined | RetThis.

Definition set_page (st : State) (pg : Page) : State :=
  {| page := pg; self := self st |}.

Definition set_heap (pg : Page) (h : list MBody) : Page :=
  {| doc := doc pg; heap := h; keydown := keydown pg;
     decompSet := decompSet pg; pixelDensity := pixelDensity pg |}.

Definition set_engine (i : Instance) (e : Engine) : Instance :=
  {| config := config i; container := container i; svgSel := svgSel i;
     shapeCache := shapeCache i; bodies := bodies i; walls := walls i;
     engine := e; runner := runner i; p5 := p5 i;
     resizeTimer := resizeTimer i |}.

Definition set_p5 (i : Instance) (p : P5) : Instance :=
  {| config := config i; container := container i; svgSel := svgSel i;
     shapeCache := shapeCache i; bodies := bodies i; walls := walls i;
     engine := engine i; runner := runner i; p5 := p;
     resizeTimer := resizeTimer i |}.

Definition set_runner (i : Instance) (r : Runner) : Instance :=
  {| config := config i; container := container i; svgSel := svgSel i;
     shapeCache := shapeCache i; bodies := bodies i; walls := walls i;
     engine := engine i; runner := r; p5 := p5 i;
     resizeTimer := resizeTimer i |}.

Definition set_bodies (i : Instance) (bs : list (nat * Shape)) : Instance :=
  {| config := config i; container := container i; svgSel := svgSel i;
     shapeCache := shapeCache i; bodies := bs; walls := walls i;
     engine := engine i; runner := runner i; p5 := p5 i;
     resizeTimer := resizeTimer i |}.

Definition set_walls (i : Instance) (ws : list nat) : Instance :=
  {| config := config i; container := container i; svgSel := svgSel i;
     shapeCache := shapeCache i; bodies := bodies i; walls := ws;
     engine := engine i; runner := runner i; p5 := p5 i;
     resizeTimer := resizeTimer i |}.

Definition set_timer (i : Instance) (t : bool) : Instance :=
  {| config := config i; container := container i; svgSel := svgSel i;
     shapeCache := shapeCache i; bodies := bodies i; walls := walls i;
     engine := engine i; runner := runner i; p5 := p5 i;
     resizeTimer := t |}.

Definition set_config (i : Instance) (c : Config) : Instance :=
  {| config := c; container := container i; svgSel := svgSel i;
     shapeCache := shapeCache i; bodies := bodies i; walls := walls i;
     engine := engine i; runner := runner i; p5 := p5 i;
     resizeTimer := resizeTimer i |}.

(** [World.add(world, body)] for the body at address [a]. *)
Definition world_add (e : Engine) (a : nat) : Engine :=
  {| world_bodies := world_bodies e ++ [a];
     world_constraints := world_constraints e;
     eng_positionIterations := eng_positionIterations e;
     eng_velocityIterations := eng_velocityIterations e |}.

(** [x || d] for an attribute value: [null] and the empty string are
    falsy. *)
Definition or_default (x : option string) (d : string) : string :=
  match x with
  | Some v => if String.eqb v EmptyString then d else v
  | None => d
  end.

(** [rawVerts[0]] is an array. *)
Definition first_is_array (vs : list vitem) : bool :=
  match vs with
  | VArray _ :: _ => true
  | _ => false
  end.

(** [rawVerts.flat()] *)
Definition flat (vs : list vitem) : list vitem :=
  concat (map (fun v =>
    match v with
    | VPoint p => [VPoint p]
    | VArray ps => map VPoint ps
    end) vs).

Section Facade.

Context {M : MatterLib}.

(** The body of the [forEach] of [#initShapeCache] for one path element;
    [rawD.replace] throws when the element has no [d]. *)
Definition cacheShape (vertexLimit scale : num) (pathEl : PathEl)
  : result Shape :=
  match attr_d pathEl with
  | None => Throw (TypeError "Cannot read properties of null")
  | Some rawD =>
      let newD := scaleDString rawD scale in
      let tmp := {| attr_d := Some newD; attr_fill := attr_fill pathEl |} in
      let rawVerts := pathToVertices tmp vertexLimit in
      let flatVerts := if first_is_array rawVerts then flat rawVerts else rawVerts in
      let h := hull flatVerts in
      let c := centre h in
      let fillStyle := or_default (attr_fill pathEl) "#3498db" in
      Ok {| sh_hull := h; centroid := c; path2d := newD; fill := fillStyle |}
  end.

Fixpoint cacheShapes (vertexLimit scale : num) (els : list PathEl)
    (cache : list Shape) : result (list Shape) :=
  match els with
  | [] => Ok cache
  | el :: els' =>
      match cacheShape vertexLimit scale el with
      | Ok sh => cacheShapes vertexLimit scale els' (cache ++ [sh])
      | Throw e => Throw e
      end
  end.

(** [#initShapeCache(svgSelector, vertexLimit, scale)] on the field
    [this.shapeCache]. *)
Definition initShapeCache (d : Document) (cache : list Shape)
    (svgSelector : string) (vertexLimit scale : num) : result (list Shape) :=
  match cache with
  | _ :: _ => Ok cache
  | [] =>
      match querySelector d svgSelector with
      | None => Ok cache
      | Some svg => cacheShapes vertexLimit scale (paths (elementAt d svg)) cache
      end
  end.

(** [#initMatter()]: registers poly-decomp, creates the engine with the
    configured iterations and a runner, and starts the runner. *)
Definition initMatter (pg : Page) (cfg : Config) : Page * Engine * Runner :=
  ({| doc := doc pg; heap := heap pg; keydown := keydown pg;
      decompSet := true; pixelDensity := pixelDensity pg |},
   {| world_bodies := []; world_constraints := [];
      eng_positionIterations := positionIterations (physics cfg);
      eng_velocityIterations := velocityIterations (physics cfg) |},
   {| running := true |}).

(** [#initP5()]: a fresh p5 instance holding the three hooks; p5 calls
    them later (see [deliver]). *)
Definition initP5 : P5 :=
  {| removed := false; started := false; canvas := None |}.

(** [#setupDebugControls()] *)
Definition setupDebugControls (pg : Page) (cfg : Config) : Page :=
  if devMode (debug cfg) then
    {| doc := doc pg; heap := heap pg;
       keydown := keydown pg ++ [ToggleBoundingBoxes];
       decompSet := decompSet pg; pixelDensity := pixelDensity pg |}
  else pg.

(** [new SVGPhysics(containerSel, svgSel, customConfig)]: the page
    afterwards, and the instance or the exception thrown. *)
Definition construct (pg : Page) (containerSel svgSelector : string)
    (customConfig : ConfigOv) : Page * result Instance :=
  let cfg := deepMerge defaultConfig customConfig in
  match querySelector (doc pg) containerSel with
  | None => (pg, Throw (Error "Invalid container selector"))
  | Some c =>
      match initShapeCache (doc pg) [] svgSelector
              (vertexLimit (physics cfg)) (scale cfg) with
      | Throw e => (pg, Throw e)
      | Ok cache =>
          let '(pg1, eng, run) := initMatter pg cfg in
          let p := initP5 in
          let pg2 := setupDebugControls pg1 cfg in
          (pg2, Ok {| config := cfg; container := c; svgSel := svgSelector;
                      shapeCache := cache; bodies := []; walls := [];
                      engine := eng; runner := run; p5 := p;
                      resizeTimer := false |})
      end
  end.

(** [#setupMouseConstraint(p)]: one invisible constraint with the
    configured stiffness and the canvas's pixel ratio joins the world. *)
Definition setupMouseConstraint (st : State) : State :=
  let i := self st in
  let e := engine i in
  let mc := {| mc_stiffness := mouseStiffness (config i);
               mc_visible := false;
               mc_pixelRatio := pixelDensity (page st) |} in
  {| page := page st;
     self := set_engine i
       {| world_bodies := world_bodies e;
          world_constraints := world_constraints e ++ [mc];
          eng_positionIterations := eng_positionIterations e;
          eng_velocityIterations := eng_velocityIterations e |} |}.

(** The [forEach] of [#calcCenterOffsets]: running bounds
    [(minX, maxX, minY, maxY)]. *)
Definition boundsStep (acc : num * num * num * num) (v : point)
  : num * num * num * num :=
  let '(minX, maxX, minY, maxY) := acc in
  (JSNum.min minX (px v), JSNum.max maxX (px v),
   JSNum.min minY (py v), JSNum.max maxY (py v)).

(** [#calcCenterOffsets(p)]: [(offsetX, offsetY)]. *)
Definition calcCenterOffsets (i : Instance) : num * num :=
  let allVerts := concat (map sh_hull (shapeCache i)) in
  let '(minX, maxX, minY, maxY) :=
    fold_left boundsStep allVerts (PInf, NInf, PInf, NInf) in
  let groupWidth := sub maxX minX in
  let groupHeight := sub maxY minY in
  let offsetX := sub (half (sub (p_width (p5 i)) groupWidth)) minX in
  let offsetY := sub (half (sub (p_height (p5 i)) groupHeight)) minY in
  (offsetX, offsetY).

(** The call of [Bodies.fromVertices] in [#createBodies] for one shape. *)
Definition bodyFor (cfg : Config) (off : num * num) (shape : Shape)
  : option MBody :=
  let startX := add (px (centroid shape)) (fst off) in
  let startY := add (py (centroid shape)) (snd off) in
  fromVertices startX startY [sh_hull shape]
    {| opt_restitution := restitution (physics cfg);
       opt_friction := friction (physics cfg) |}
    true
    (simplifyTolerance (physics cfg))
    (minimumArea (physics cfg)).

(** The body of the [forEach] of [#createBodies]. *)
Definition createBody (off : num * num) (st : State) (shape : Shape) : State :=
  match bodyFor (config (self st)) off shape with
  | None => st
  | Some body =>
      let a := length (heap (page st)) in
      let i := self st in
      {| page := set_heap (page st) (heap (page st) ++ [body]);
         self := set_bodies (set_engine i (world_add (engine i) a))
                   (bodies i ++ [(a, shape)]) |}
  end.

(** [#createBodies(p)] *)
Definition createBodies (st : State) : State :=
  let off := calcCenterOffsets (self st) in
  fold_left (createBody off) (shapeCache (self st)) st.

(** The three rectangles of [#createWalls] for a canvas of [w] by [h]:
    floor, left, right. *)
Definition wallsFor (w h : num) : list MBody :=
  [ rectangle (half w) (add h (of_Z 50)) w (of_Z 100) true;
    rectangle (of_Z (-50)) (half h) (of_Z 100) (mul h (of_Z 2)) true;
    rectangle (add w (of_Z 50)) (half h) (of_Z 100) (mul h (of_Z 2)) true ].

(** [#createWalls(p)] *)
Definition createWalls (st : State) : State :=
  let i := self st in
  let w := p_width (p5 i) in
  let h := p_height (p5 i) in
  let a := length (heap (page st)) in
  let ws := [a; S a; S (S a)] in
  let e := engine i in
  {| page := set_heap (page st) (heap (page st) ++ wallsFor w h);
     self := set_walls
       (set_engine i
          {| world_bodies := world_bodies e ++ ws;
             world_constraints := world_constraints e;
             eng_positionIterations := eng_positionIterations e;
             eng_velocityIterations := eng_velocityIterations e |})
       ws |}.

(** [#setup(p)] *)
Definition setup (st : State) : State :=
  let i := self st in
  let el := elementAt (doc (page st)) (container i) in
  let p := {| removed := removed (p5 i); started := started (p5 i);
              canvas := Some (clientWidth el, clientHeight el) |} in
  let st1 := {| page := page st; self := set_p5 i p |} in
  createWalls (createBodies (setupMouseConstraint st1)).

(** Modelled from the spec: [p.resizeCanvas(w, h)] gives the canvas its
    new size; without a canvas there is nothing to resize. *)
Definition resizeCanvas (p : P5) (w h : Z) : P5 :=
  match canvas p with
  | Some _ => {| removed := removed p; started := started p;
                 canvas := Some (w, h) |}
  | None => p
  end.

(** [Body.setPosition(this.walls[k], pos)]: a [TypeError] when
    [this.walls[k]] is [undefined]. *)
Definition moveWall (st : State) (k : nat) (pos : point) : result State :=
  match walls (self st) !! k with
  | None => Throw (TypeError "Cannot read properties of undefined")
  | Some a =>
      Ok (set_page st
            (set_heap (page st)
               (alter (fun b => setPosition b pos) a (heap (page st)))))
  end.

(** [#handleResize(p)]: the state it leaves, and the exception if one of
    its calls throws. *)
Definition handleResize (st : State) : State * option exn :=
  let i := self st in
  let el := elementAt (doc (page st)) (container i) in
  let w := clientWidth el in
  let h := clientHeight el in
  let st1 := {| page := page st; self := set_p5 i (resizeCanvas (p5 i) w h) |} in
  match moveWall st1 0 (Pt (half (of_Z w)) (add (of_Z h) (of_Z 50))) with
  | Throw e => (st1, Some e)
  | Ok st2 =>
      match moveWall st2 2 (Pt (add (of_Z w) (of_Z 50)) (half (of_Z h))) with
      | Throw e => (st2, Some e)
      | Ok st3 => (st3, None)
      end
  end.

(** [pause()]: [Matter.Runner.stop(this.runner); return this]. *)
Definition pause (st : State) : State * retval :=
  ({| page := page st; self := set_runner (self st) {| running := false |} |},
   RetThis).

(** [resume()]: [Matter.Runner.start(this.runner, this.engine);
    return this]. *)
Definition resume (st : State) : State * retval :=
  ({| page := page st; self := set_runner (self st) {| running := true |} |},
   RetThis).

(** Modelled from the spec: [World.clear(world)] takes every body and
    constraint out of the world. *)
Definition world_clear (e : Engine) : Engine :=
  {| world_bodies := []; world_constraints := [];
     eng_positionIterations := eng_positionIterations e;
     eng_velocityIterations := eng_velocityIterations e |}.

(** Modelled from the spec: [p5.remove()] stops the frame loop, takes
    p5's own window listeners off and removes the canvas. *)
Definition p5_remove (p : P5) : P5 :=
  {| removed := true; started := started p; canvas := None |}.

(** [destroy()]: [World.clear], [Engine.clear], [this.p5.remove()]; the
    method has no [return]. *)
Definition destroy (st : State) : State * retval :=
  let i := self st in
  ({| page := page st;
      self := set_p5 (set_engine i (world_clear (engine i)))
                (p5_remove (p5 i)) |},
   RetUndefined).

(** ** What the browser, p5 and the runner do to an instance *)

Inductive event :=
| EvSetup                        (* p5 starts the sketch *)
| EvFrame                        (* p5's frame loop *)
| EvResize                       (* the window is resized *)
| EvTimeout                      (* a pending timer expires *)
| EvKeydown (key : string)       (* a key goes down *)
| EvLayout (w h : Z)             (* the container gets a new content box *)
| EvTick (upd : MBody -> MBody). (* the runner steps the engine *)

(** The functions of the instance an event can run. *)
Inductive callback :=
| CbSetup
| CbDraw
| CbWindowResized
| CbHandleResize
| CbKeydown.

(** The [keydown] listener of [#setupDebugControls]. *)
Definition onKeydown (key : string) (i : Instance) : Instance :=
  if String.eqb key "b" then
    let c := config i in
    set_config i
      {| scale := scale c;
         debug := {| devMode := devMode (debug c);
                     showBoundingBoxes := negb (showBoundingBoxes (debug c)) |};
         physics := physics c;
         mouseStiffness := mouseStiffness c;
         outline := outline c |}
  else i.

Definition runListener (key : string) (acc : Instance * list callback)
    (l : listener) : Instance * list callback :=
  match l with
  | ToggleBoundingBoxes => (onKeydown key (fst acc), snd acc ++ [CbKeydown])
  end.

Definition setElement (d : Document) (n : nat) (el : Element) : Document :=
  {| nodes := <[n := el]> (nodes d); selectors := selectors d |}.

(** Modelled from the spec: one step of the engine advances the
    transforms of the world's bodies that are not static. *)
Definition engineUpdate (upd : MBody -> MBody) (e : Engine)
    (h : list MBody) : list MBody :=
  fold_left
    (fun h a => alter (fun b => if isStatic b then b else upd b) a h)
    (world_bodies e) h.

(** One event: the state afterwards and the callbacks of the instance
    that ran.  p5 runs [setup] once, and none of its hooks after
    [remove()]; window listeners and timers do not go through p5. *)
Definition deliver (ev : event) (st : State) : State * list callback :=
  let i := self st in
  match ev with
  | EvSetup =>
      if removed (p5 i) || started (p5 i) then (st, [])
      else
        let st' := setup st in
        let p := p5 (self st') in
        ({| page := page st';
            self := set_p5 (self st')
              {| removed := removed p; started := true; canvas := canvas p |} |},
         [CbSetup])
  | EvFrame =>
      (* [#draw] paints from [bodies] and [config]; it writes no field *)
      if removed (p5 i) || negb (started (p5 i)) then (st, [])
      else (st, [CbDraw])
  | EvResize =>
      (* [debounce]: clearTimeout(t); t = setTimeout(..., 100) *)
      if removed (p5 i) then (st, [])
      else ({| page := page st; self := set_timer i true |}, [CbWindowResized])
  | EvTimeout =>
      if resizeTimer i then
        (fst (handleResize {| page := page st; self := set_timer i false |}),
         [CbHandleResize])
      else (st, [])
  | EvKeydown key =>
      let '(i', log) := fold_left (runListener key) (keydown (page st)) (i, []) in
      ({| page := page st; self := i' |}, log)
  | EvLayout w h =>
      let d := doc (page st) in
      let el := elementAt d (container i) in
      let el' := {| clientWidth := w; clientHeight := h; paths := paths el |} in
      let pg := page st in
      ({| page := {| doc := setElement d (container i) el'; heap := heap pg;
                     keydown := keydown pg; decompSet := decompSet pg;
                     pixelDensity := pixelDensity pg |};
          self := i |}, [])
  | EvTick upd =>
      if running (runner i) then
        (set_page st
           (set_heap (page st) (engineUpdate upd (engine i) (heap (page st)))),
         [])
      else (st, [])
  end.

(** What can happen to a constructed instance: an event, or a call of
    one of its three public methods. *)
Inductive action :=
| Deliver (ev : event)
| CallPause
| CallResume
| CallDestroy.

Definition run (a : action) (st : State) : State :=
  match a with
  | Deliver ev => fst (deliver ev st)
  | CallPause => fst (pause st)
  | CallResume => fst (resume st)
  | CallDestroy => fst (destroy st)
  end.

(** The states an instance built on [pg] can be in. *)
Inductive reachable (pg : Page) (containerSel svgSelector : string)
    (custom : ConfigOv) : State -> Prop :=
| reach_new pg' i :
    construct pg containerSel svgSelector custom = (pg', Ok i) ->
    reachable pg containerSel svgSelector custom {| page := pg'; self := i |}
| reach_run a st :
    reachable pg containerSel svgSelector custom st ->
    reachable pg containerSel svgSelector custom (run a st).

(** ** Notions the properties are stated with *)

(** [Bodies.fromVertices] yields a body for the shape: the test
    [if (!body) return] of [#createBodies] lets it through. *)
Definition passes (cfg : Config) (off : num * num) (shape : Shape) : bool :=
  match bodyFor cfg off shape with
  | Some _ => true
  | None => false
  end.

(** Body and wall references point into the heap, and no dynamic body is
    a wall. *)
Definition refs_apart (st : State) : Prop :=
  (forall a sh, (a, sh) ∈ bodies (self st) -> (a < length (heap (page st)))%nat) /\
  (forall w, w ∈ walls (self st) -> (w < length (heap (page st)))%nat) /\
  (forall a sh, (a, sh) ∈ bodies (self st) -> a ∉ walls (self st)).

(** No event runs a callback of the instance any more. *)
Definition no_callback_fires (st : State) : Prop :=
  forall ev, snd (deliver ev st) = [].

(** The events that reach the instance through a hook p5 calls. *)
Definition p5_event (ev : event) : bool :=
  match ev with
  | EvSetup | EvFrame | EvResize => true
  | _ => false
  end.

(** A sequence of actions, one after the other. *)
Definition runAll (acts : list action) (st : State) : State :=
  fold_left (fun s a => run a s) acts st.

(** Where [#createWalls] puts floor, left and right wall for a container
    of [w] by [h]. *)
Definition edgePositions (w h : Z) : list point :=
  map position (wallsFor (of_Z w) (of_Z h)).

(** The positions of the walls of a state, [None] for a dangling
    reference. *)
Definition wallPositions (st : State) : list (option point) :=
  map (fun a => option_map position (heap (page st) !! a)) (walls (self st)).

(** The corners of the walls of a state. *)
Definition wallVertices (st : State) : list (option (list point)) :=
  map (fun a => option_map vertices (heap (page st) !! a)) (walls (self st)).

(** After the resize handler every wall sits where [#createWalls] would
    put it for the container's current box. *)
Definition walls_at_edges (st : State) : Prop :=
  let el := elementAt (doc (page st)) (container (self st)) in
  wallPositions st = map Some (edgePositions (clientWidth el) (clientHeight el)).

(** How the [fill] of a cached shape follows from the element's
    attribute. *)
Definition fill_rule (el : PathEl) (sh : Shape) : Prop :=
  (attr_fill el = None \/ attr_fill el = Some EmptyString ->
   fill sh = "#3498db") /\
  (forall v, attr_fill el = Some v -> v <> EmptyString -> fill sh = v).

(** The centroid [#initShapeCache] computes for a path element as it
    stands: sample, flatten, hull, centre. *)
Definition hullCentroidOf (vertexLimit : num) (el : PathEl) : point :=
  let rawVerts := pathToVertices el vertexLimit in
  centre (hull (if first_is_array rawVerts then flat rawVerts else rawVerts)).

Definition scalePoint (k : num) (p : point) : point :=
  Pt (mul (px p) k) (mul (py p) k).

(** The element with its path data rewritten by [#scaleDString]. *)
Definition scaledEl (el : PathEl) (k : num) : PathEl :=
  {| attr_d := option_map (fun d => scaleDString d k) (attr_d el);
     attr_fill := attr_fill el |}.

(** The scaling law of the hull centroid, for the engine at hand. *)
Definition scaling_law (vertexLimit : num) : Prop :=
  forall el k,
    hullCentroidOf vertexLimit (scaledEl el k) =
    scalePoint k (hullCentroidOf vertexLimit el).

(** The state with the bodies [bs] allocated in a row, added to the
    world, and paired with the shapes [shs]. *)
Definition withBodies (st : State) (bs : list MBody) (shs : list Shape) : State :=
  let n := length (heap (page st)) in
  let addrs := seq n (length bs) in
  let e := engine (self st) in
  {| page := set_heap (page st) (heap (page st) ++ bs);
     self := set_bodies
       (set_engine (self st)
          {| world_bodies := world_bodies e ++ addrs;
             world_constraints := world_constraints e;
             eng_positionIterations := eng_positionIterations e;
             eng_velocityIterations := eng_velocityIterations e |})
       (bodies (self st) ++ zip addrs shs) |}.

End Facade.

(** ** Reading a path string as literals and other characters *)
Module PathTokens.

(** The strings a pattern accepts. *)
Inductive matches : regex -> string -> Prop :=
| matches_nil : matches [] EmptyString
| matches_one p c r m :
    p c = true -> matches r m -> matches (One p :: r) (String c m)
| matches_opt_skip p r m :
    matches r m -> matches (Opt p :: r) m
| matches_opt_take p c r m :
    p c = true -> matches r m -> matches (Opt p :: r) (String c m)
| matches_star_stop p r m :
    matches r m -> matches (Star p :: r) m
| matches_star_more p c r m :
    p c = true -> matches (Star p :: r) m -> matches (Star p :: r) (String c m)
| matches_plus p c r m :
    p c = true -> matches (Star p :: r) m -> matches (Plus p :: r) (String c m).

(** A continuation that only returns splits of its input, and matches of
    [r]. *)
Definition sound_for (r : regex) (k : string -> matched) : Prop :=
  forall s m rest, k s = Some (m, rest) -> matches r m /\ s = m +:+ rest.

(** A piece of a path string: a numeric literal (a match of the number
    pattern) or one character outside every match. *)
Inductive piece :=
| Lit (m : string)
| Chr (c : ascii).

Fixpoint pieces_fuel (fuel : nat) (s : string) : list piece :=
  match fuel with
  | O => []
  | S fuel' =>
      match s with
      | EmptyString => []
      | String c s' =>
          match exec numberRe s with
          | Some (String a m, rest) => Lit (String a m) :: pieces_fuel fuel' rest
          | _ => Chr c :: pieces_fuel fuel' s'
          end
      end
  end.

(** The pieces of [s], left to right. *)
Definition pieces (s : string) : list piece :=
  pieces_fuel (S (String.length s)) s.

(** The numeric literals of [s], left to right. *)
Definition literals (s : string) : list string :=
  omap (fun p => match p with Lit m => Some m | Chr _ => None end) (pieces s).

(** The string a list of pieces was cut from. *)
Fixpoint source_of (ps : list piece) : string :=
  match ps with
  | [] => EmptyString
  | Lit m :: ps' => m +:+ source_of ps'
  | Chr c :: ps' => String c (source_of ps')
  end.

(** The pieces written out again with every literal multiplied by [k]. *)
Fixpoint render (k : num) (ps : list piece) : string :=
  match ps with
  | [] => EmptyString
  | Lit m :: ps' => toString (mul (parseFloat m) k) +:+ render k ps'
  | Chr c :: ps' => String c (render k ps')
  end.

Definition piece_ok (p : piece) : Prop :=
  match p with
  | Lit m => matches numberRe m
  | Chr c => is_digit c = false
  end.

(** The reading "every numeric token is multiplied by the factor and
    the structure is kept": the literals of the result are, one for
    one, the literals of the input times [k]. *)
Definition scales_every_literal (d : string) (k : num) : Prop :=
  map parseFloat (literals (scaleDString d k)) =
  map (fun m => mul (parseFloat m) k) (literals d).

End PathTokens.
Export PathTokens.

(** ** A stand-in engine and a page for the examples *)
Module Demo.

Definition triangle : list point :=
  [ Pt (of_Z 0) (of_Z 0); Pt (of_Z 4) (of_Z 0); Pt (of_Z 0) (of_Z 4) ].

(** A stand-in for Matter: a path with data samples to a triangle, a
    hull of fewer than three points gives no body. *)
Definition demoMatter : MatterLib := {|
  pathToVertices := fun el _ =>
    match attr_d el with
    | Some (String _ _) => map VPoint triangle
    | _ => []
    end;
  hull := fun vs =>
    omap (fun v => match v with VPoint p => Some p | VArray _ => None end) vs;
  centre := fun h => default origin (head h);
  fromVertices := fun x y sets _ _ _ _ =>
    match sets with
    | [h] =>
        if (3 <=? length h)%nat
        then Some {| position := Pt x y; velocity := origin;
                     angle := of_Z 0; angularVelocity := of_Z 0;
                     isStatic := false; vertices := h |}
        else None
    | _ => None
    end
|}.

Definition pathA : PathEl := {| attr_d := Some "M0 0L4 0L0 4z"; attr_fill := None |}.
Definition pathB : PathEl := {| attr_d := Some EmptyString; attr_fill := Some "red" |}.
Definition pathC : PathEl := {| attr_d := Some "M1 1L5 1L1 5z"; attr_fill := Some EmptyString |}.

Definition demoDoc (svgPaths : list PathEl) : Document := {|
  nodes := [ {| clientWidth := 800; clientHeight := 600; paths := [] |};
             {| clientWidth := 300; clientHeight := 150; paths := svgPaths |} ];
  selectors := [ ("#container", 0%nat); ("svg", 1%nat) ]
|}.

Definition demoPage (svgPaths : list PathEl) : Page := {|
  doc := demoDoc svgPaths;
  heap := [];
  keydown := [];
  decompSet := false;
  pixelDensity := of_Z 1
|}.

Definition devModeOn : ConfigOv := {|
  ov_scale := Some (of_Z 1);
  ov_debug := Some {| ov_devMode := Some true; ov_showBoundingBoxes := Some false |};
  ov_physics := None; ov_mouseStiffness := None; ov_outline := None |}.

(** The instance built on a page, or [None] when the constructor
    throws. *)
Definition built (pg : Page) (containerSel svgSelector : string)
    (custom : ConfigOv) : option State :=
  match construct (M := demoMatter) pg containerSel svgSelector custom with
  | (pg', Ok i) => Some {| page := pg'; self := i |}
  | (_, Throw _) => None
  end.

Definition runs (acts : list action) (st : State) : State :=
  runAll (M := demoMatter) acts st.

(** The demo page with three paths, constructed in dev mode and set
    up by p5. *)
Definition booted : option State :=
  option_map (runs [Deliver EvSetup])
    (built (demoPage [pathA; pathB; pathC]) "#container" "svg" devModeOn).

End Demo.

(** ** The value of a number *)

(** The rational a decimal stands for. *)
Definition dval (d : dec) : Q := inject_Z (mant d) * 10 ^ expo d.

(** The number [x] is finite and stands for [q]. *)
Definition has_value (x : num) (q : Q) : Prop :=
  exists d, x = Fin d /\ (dval d == q)%Q.





(** The point has the coordinates [(x, y)]. *)
Definition point_at (v : point) (x y : Q) : Prop :=
  has_value (px v) x /\ has_value (py v) y.

(** The body's vertices are the corners of the box from [(x0, y0)] to
    [(x1, y1)], clockwise from the top left. *)
Definition box (b : MBody) (x0 y0 x1 y1 : Q) : Prop :=
  exists v1 v2 v3 v4,
    vertices b = [v1; v2; v3; v4] /\
    point_at v1 x0 y0 /\ point_at v2 x1 y0 /\
    point_at v3 x1 y1 /\ point_at v4 x0 y1.

(** ** Plain JavaScript values and the generic [deepMerge] of [utils.js] *)
Module JSValue.

(** Values an options object is made of.  An object is the list of its
    own enumerable properties, each key once; prototypes and functions
    are not modelled, so keys are taken not to be names of members of
    [Object.prototype]. *)
#[local] Set Warnings "-register-all".
Inductive jsval :=
| JUndefined
| JNull
| JBool (b : bool)
| JNum (n : num)
| JStr (s : string)
| JArr (items : list jsval)
| JObj (fields : list (string * jsval)).

(** [!!v] *)
Definition truthy (v : jsval) : bool :=
  match v with
  | JUndefined | JNull => false
  | JBool b => b
  | JNum (Fin d) => negb (mant d =? 0)
  | JNum NaN => false
  | JNum _ => true
  | JStr s => negb (String.eqb s EmptyString)
  | JArr _ | JObj _ => true
  end.

(** [typeof v === "object"] *)
Definition typeof_object (v : jsval) : bool :=
  match v with
  | JNull | JArr _ | JObj _ => true
  | _ => false
  end.

(** [v instanceof Object && !Array.isArray(v)] *)
Definition plain_object (v : jsval) : bool :=
  match v with
  | JObj _ => true
  | _ => false
  end.

Definition index_key (i : nat) : string := digits_of (Z.of_nat i).

(** The elements of an array or the characters of a string as
    properties ["0"], ["1"], ... *)
Fixpoint indexed {A} (f : A -> jsval) (i : nat) (l : list A)
  : list (string * jsval) :=
  match l with
  | [] => []
  | x :: l' => (index_key i, f x) :: indexed f (S i) l'
  end.

Fixpoint chars (s : string) : list ascii :=
  match s with
  | EmptyString => []
  | String c s' => c :: chars s'
  end.

Definition char_val (c : ascii) : jsval := JStr (String c EmptyString).

(** The own enumerable properties [{ ...v }] copies and
    [Object.keys(v)] lists. *)
Definition own_fields (v : jsval) : list (string * jsval) :=
  match v with
  | JObj fs => fs
  | JArr l => indexed id 0 l
  | JStr s => indexed char_val 0 (chars s)
  | _ => []
  end.

Fixpoint lookup_field (k : string) (fs : list (string * jsval)) : option jsval :=
  match fs with
  | [] => None
  | (k', v) :: fs' => if String.eqb k k' then Some v else lookup_field k fs'
  end.

Definition length_val (n : nat) : jsval := JNum (of_Z (Z.of_nat n)).

(** [v[k]]: a [TypeError] on [null] and [undefined], [undefined] for a
    property that is not there. *)
Definition get (v : jsval) (k : string) : result jsval :=
  match v with
  | JUndefined | JNull => Throw (TypeError "Cannot read properties of null")
  | JArr l =>
      if String.eqb k "length" then Ok (length_val (length l))
      else Ok (default JUndefined (lookup_field k (own_fields v)))
  | JStr s =>
      if String.eqb k "length" then Ok (length_val (String.length s))
      else Ok (default JUndefined (lookup_field k (own_fields v)))
  | _ => Ok (default JUndefined (lookup_field k (own_fields v)))
  end.

(** [output[k] = v] on the properties of an object: an existing
    property keeps its place. *)
Fixpoint set_field (k : string) (v : jsval) (fs : list (string * jsval))
  : list (string * jsval) :=
  match fs with
  | [] => [(k, v)]
  | (k', v') :: fs' =>
      if String.eqb k k' then (k, v) :: fs' else (k', v') :: set_field k v fs'
  end.

(** [x || {}] *)
Definition or_empty (x : jsval) : jsval := if truthy x then x else JObj [].

(** The body of the [forEach] of [deepMerge] for the property [key] of
    the source with the value [v]; [merge] stands for the recursive
    call. *)
Definition mergeProp (merge : jsval -> jsval -> result jsval) (target : jsval)
    (key : string) (v : jsval) (output : list (string * jsval))
  : result (list (string * jsval)) :=
  match v with
  | JObj _ =>
      match get target key with
      | Throw e => Throw e
      | Ok tk =>
          match merge (or_empty tk) v with
          | Throw e => Throw e
          | Ok merged => Ok (set_field key merged output)
          end
      end
  | _ => Ok (set_field key v output)
  end.

(** [Object.keys(source).forEach(...)] for an object. *)
Fixpoint eachProp (merge : jsval -> jsval -> result jsval) (target : jsval)
    (props : list (string * jsval)) (output : list (string * jsval))
  : result (list (string * jsval)) :=
  match props with
  | [] => Ok output
  | (key, v) :: props' =>
      match mergeProp merge target key v output with
      | Throw e => Throw e
      | Ok output' => eachProp merge target props' output'
      end
  end.

(** [Object.keys(source).forEach(...)] for an array, from index [i]. *)
Fixpoint eachItem (merge : jsval -> jsval -> result jsval) (target : jsval)
    (i : nat) (l : list jsval) (output : list (string * jsval))
  : result (list (string * jsval)) :=
  match l with
  | [] => Ok output
  | v :: l' =>
      match mergeProp merge target (index_key i) v output with
      | Throw e => Throw e
      | Ok output' => eachItem merge target (S i) l' output'
      end
  end.

(** [deepMerge(target, source)]: the target itself for a source that is
    falsy or no object, else a fresh object: a copy of the target's
    properties with the source's written over them. *)
Fixpoint deepMerge (target source : jsval) {struct source} : result jsval :=
  match source with
  | JObj props =>
      match eachProp deepMerge target props (own_fields target) with
      | Ok output => Ok (JObj output)
      | Throw e => Throw e
      end
  | JArr l =>
      match eachItem deepMerge target 0%nat l (own_fields target) with
      | Ok output => Ok (JObj output)
      | Throw e => Throw e
      end
  | _ => Ok target
  end.

(** The value is neither [null] nor [undefined]. *)
Definition defined (v : jsval) : Prop := v <> JNull /\ v <> JUndefined.

(** Induction over values with the elements of arrays and the values of
    properties as smaller values. *)
Fixpoint jsval_nested_ind (P : jsval -> Prop)
    (Hundef : P JUndefined) (Hnull : P JNull)
    (Hbool : forall b, P (JBool b)) (Hnum : forall n, P (JNum n))
    (Hstr : forall s, P (JStr s))
    (Harr : forall l, Forall P l -> P (JArr l))
    (Hobj : forall fs, Forall (fun kv => P (snd kv)) fs -> P (JObj fs))
    (v : jsval) : P v :=
  match v with
  | JUndefined => Hundef
  | JNull => Hnull
  | JBool b => Hbool b
  | JNum n => Hnum n
  | JStr s => Hstr s
  | JArr l =>
      Harr l ((fix go (l : list jsval) : Forall P l :=
                 match l with
                 | [] => @List.Forall_nil _ P
                 | x :: l' =>
                     @List.Forall_cons _ P x l'
                       (jsval_nested_ind P Hundef Hnull Hbool Hnum Hstr Harr Hobj x)
                       (go l')
                 end) l)
  | JObj fs =>
      Hobj fs ((fix go (fs : list (string * jsval))
                  : Forall (fun kv => P (snd kv)) fs :=
                  match fs with
                  | [] => @List.Forall_nil _ (fun kv => P (snd kv))
                  | kv :: fs' =>
                      @List.Forall_cons _ (fun kv => P (snd kv)) kv fs'
                        (jsval_nested_ind P Hundef Hnull Hbool Hnum Hstr Harr Hobj (snd kv))
                        (go fs')
                  end) fs)
  end.

End JSValue.

(** ** The configuration as a plain value *)

(** A property that may be missing. *)
Definition opt_field (k : string) (v : option JSValue.jsval)
  : list (string * JSValue.jsval) :=
  match v with
  | Some x => [(k, x)]
  | None => []
  end.

Definition debugJ (d : DebugCfg) : JSValue.jsval :=
  JSValue.JObj [ ("devMode", JSValue.JBool (devMode d));
                 ("showBoundingBoxes", JSValue.JBool (showBoundingBoxes d)) ].

Definition physicsJ (p : PhysicsCfg) : JSValue.jsval :=
  JSValue.JObj [ ("restitution", JSValue.JNum (restitution p));
                 ("friction", JSValue.JNum (friction p));
                 ("vertexLimit", JSValue.JNum (vertexLimit p));
                 ("simplifyTolerance", JSValue.JNum (simplifyTolerance p));
                 ("minimumArea", JSValue.JNum (minimumArea p));
                 ("positionIterations", JSValue.JNum (positionIterations p));
                 ("velocityIterations", JSValue.JNum (velocityIterations p)) ].

Definition outlineJ (o : OutlineCfg) : JSValue.jsval :=
  JSValue.JObj [ ("stroke", JSValue.JStr (stroke o));
                 ("strokeWidth", JSValue.JNum (strokeWidth o)) ].

(** A configuration as the object the class holds in [this.config],
    with the keys in the order of [defaultConfig]. *)
Definition configJ (c : Config) : JSValue.jsval :=
  JSValue.JObj [ ("scale", JSValue.JNum (scale c));
                 ("debug", debugJ (debug c));
                 ("physics", physicsJ (physics c));
                 ("mouseConstraint",
                    JSValue.JObj [("stiffness", JSValue.JNum (mouseStiffness c))]);
                 ("outline", outlineJ (outline c)) ].

Definition debugOvJ (o : DebugOv) : JSValue.jsval :=
  JSValue.JObj
    (opt_field "devMode" (option_map JSValue.JBool (ov_devMode o)) ++
     opt_field "showBoundingBoxes" (option_map JSValue.JBool (ov_showBoundingBoxes o))).

Definition physicsOvJ (o : PhysicsOv) : JSValue.jsval :=
  JSValue.JObj
    (opt_field "restitution" (option_map JSValue.JNum (ov_restitution o)) ++
     opt_field "friction" (option_map JSValue.JNum (ov_friction o)) ++
     opt_field "vertexLimit" (option_map JSValue.JNum (ov_vertexLimit o)) ++
     opt_field "simplifyTolerance" (option_map JSValue.JNum (ov_simplifyTolerance o)) ++
     opt_field "minimumArea" (option_map JSValue.JNum (ov_minimumArea o)) ++
     opt_field "positionIterations" (option_map JSValue.JNum (ov_positionIterations o)) ++
     opt_field "velocityIterations" (option_map JSValue.JNum (ov_velocityIterations o))).

Definition outlineOvJ (o : OutlineOv) : JSValue.jsval :=
  JSValue.JObj
    (opt_field "stroke" (option_map JSValue.JStr (ov_stroke o)) ++
     opt_field "strokeWidth" (option_map JSValue.JNum (ov_strokeWidth o))).

(** A caller's override object with its keys in the order of
    [defaultConfig]. *)
Definition configOvJ (o : ConfigOv) : JSValue.jsval :=
  JSValue.JObj
    (opt_field "scale" (option_map JSValue.JNum (ov_scale o)) ++
     opt_field "debug" (option_map debugOvJ (ov_debug o)) ++
     opt_field "physics" (option_map physicsOvJ (ov_physics o)) ++
     opt_field "mouseConstraint"
       (option_map
          (fun s => JSValue.JObj (opt_field "stiffness" (option_map JSValue.JNum s)))
          (ov_mouseStiffness o)) ++
     opt_field "outline" (option_map outlineOvJ (ov_outline o))).

(** ** [debounce] of [utils.js] *)
Module Debounce.

Section Debounce.

(** The arguments of one call of the debounced function. *)
Context {A : Type}.

(** A timer [setTimeout(() => fn(...args), ms)] has set up. *)
Record timer := { tid : nat; delay : Z; targs : A }.

(** The variable [t] of the closure, the timers of it that are pending,
    the handle the next [setTimeout] returns, and the arguments [fn] has
    been called with so far. *)
Record dstate := {
  t : option nat;
  timers : list timer;
  nextId : nat;
  invoked : list A
}.

Definition start : dstate :=
  {| t := None; timers := []; nextId := 1; invoked := [] |}.

(** [clearTimeout(t)]: nothing happens for [undefined] or a timer that
    is no longer pending. *)
Definition clearTimeout (id : option nat) (ts : list timer) : list timer :=
  match id with
  | None => ts
  | Some i => List.filter (fun x => negb (Nat.eqb (tid x) i)) ts
  end.

(** A call of the function [debounce(fn, ms)] returned:
    [clearTimeout(t); t = setTimeout(() => fn(...args), ms)]. *)
Definition call (ms : Z) (args : A) (s : dstate) : dstate :=
  {| t := Some (nextId s);
     timers := clearTimeout (t s) (timers s) ++
               [{| tid := nextId s; delay := ms; targs := args |}];
     nextId := S (nextId s);
     invoked := invoked s |}.

(** The timer [id] expires: if it is pending, [fn] runs with the
    arguments of its call. *)
Definition expire (id : nat) (s : dstate) : dstate :=
  match List.find (fun x => Nat.eqb (tid x) id) (timers s) with
  | Some tm =>
      {| t := t s;
         timers := List.filter (fun x => negb (Nat.eqb (tid x) id)) (timers s);
         nextId := nextId s;
         invoked := invoked s ++ [targs tm] |}
  | None => s
  end.

Inductive devent :=
| DCall (args : A)
| DExpire (id : nat).

Definition dstep (ms : Z) (s : dstate) (e : devent) : dstate :=
  match e with
  | DCall args => call ms args s
  | DExpire id => expire id s
  end.

Definition drun (ms : Z) (es : list devent) : dstate :=
  fold_left (dstep ms) es start.

(** The arguments of the calls among the events, in order. *)
Definition callArgs (es : list devent) : list A :=
  omap (fun e => match e with DCall a => Some a | DExpire _ => None end) es.

(** What holds in every state of a debounced function: the pending
    timer, if any, is the one [t] names, it was set for the delay [ms]
    with the arguments of the latest call; and the arguments [fn] has run
    with, followed by those still waiting, are a selection of the
    arguments of the calls, in call order. *)
Definition dinv (ms : Z) (calls : list A) (s : dstate) : Prop :=
  (timers s = [] \/
   exists tm, timers s = [tm] /\ t s = Some (tid tm) /\ delay tm = ms /\
              last calls = Some (targs tm)) /\
  invoked s ++ map targs (timers s) `sublist_of` calls.

End Debounce.

Arguments timer : clear implicits.
Arguments dstate : clear implicits.
Arguments devent : clear implicits.

End Debounce.

(** ** The frame: [#draw] and [#drawDebugBounds] *)
Module Canvas.

(** The calls [#draw] makes on p5 and on the 2D context. *)
Inductive drawCmd :=
| CClear                          (* p.clear() *)
| CSave                           (* ctx.save() *)
| CRestore                        (* ctx.restore() *)
| CTranslate (x y : num)          (* ctx.translate(x, y) *)
| CRotate (a : num)               (* ctx.rotate(a) *)
| CFillStyle (s : string)         (* ctx.fillStyle = s *)
| CStrokeStyle (s : string)       (* ctx.strokeStyle = s *)
| CLineWidth (w : num)            (* ctx.lineWidth = w *)
| CFill (path : string)           (* ctx.fill(path2d) *)
| CStroke (path : string)         (* ctx.stroke(path2d) *)
| CBeginPath                      (* ctx.beginPath() *)
| CMoveTo (x y : num)             (* ctx.moveTo(x, y) *)
| CLineTo (x y : num)             (* ctx.lineTo(x, y) *)
| CClosePath                      (* ctx.closePath() *)
| CStrokePath.                    (* ctx.stroke() *)

(** [body.vertices.forEach((v, i) => i ? ctx.lineTo(v.x, v.y)
    : ctx.moveTo(v.x, v.y))] *)
Definition outlineCmds (vs : list point) : list drawCmd :=
  match vs with
  | [] => []
  | v :: vs' => CMoveTo (px v) (py v) :: map (fun u => CLineTo (px u) (py u)) vs'
  end.

(** [#drawDebugBounds(body, ctx)] *)
Definition drawDebugBounds (body : MBody) : list drawCmd :=
  [CSave; CStrokeStyle "rgba(0,0,255,0.5)"; CBeginPath] ++
  outlineCmds (vertices body) ++
  [CClosePath; CStrokePath; CRestore].

(** The body of the [forEach] of [#draw] for one pair
    [{ body, fill, path2d, centroid }]. *)
Definition drawBody (cfg : Config) (body : MBody) (shape : Shape) : list drawCmd :=
  [ CSave;
    CTranslate (px (position body)) (py (position body));
    CRotate (angle body);
    CTranslate (neg (px (centroid shape))) (neg (py (centroid shape)));
    CFillStyle (fill shape);
    CFill (path2d shape);
    CStrokeStyle (stroke (outline cfg));
    CLineWidth (strokeWidth (outline cfg));
    CStroke (path2d shape);
    CRestore ] ++
  (if showBoundingBoxes (debug cfg) then drawDebugBounds body else []).

(** The pairs of [this.bodies] with their Matter bodies looked up.  (A
    reference without a body draws nothing; in the states of an instance
    there is none, see [refs_apart].) *)
Definition livePairs (st : State) : list (MBody * Shape) :=
  omap (fun bs => match heap (page st) !! fst bs with
                  | Some b => Some (b, snd bs)
                  | None => None
                  end) (bodies (self st)).

(** [#draw(p)] *)
Definition draw (st : State) : list drawCmd :=
  CClear ::
  concat (map (fun bs => drawBody (config (self st)) (fst bs) (snd bs))
            (livePairs st)).

(** *** What the calls do to a 2D context *)

Inductive xform :=
| Translate (x y : num)
| Rotate (a : num).

(** The drawing state [save] and [restore] keep: the transform (the
    calls that built it, oldest first) and the styles. *)
Record gstate := {
  transform : list xform;
  fillStyle : string;
  strokeStyle : string;
  lineWidth : num
}.

(** A point of the current path: where it was added, under which
    transform, and whether a line leads to it. *)
Record pathPoint := {
  pp_line : bool;
  pp_transform : list xform;
  pp_x : num;
  pp_y : num
}.

(** One painting operation on the canvas. *)
Inductive paint :=
| Filled (g : gstate) (path : string)
| Stroked (g : gstate) (path : string)
| StrokedOutline (g : gstate) (points : list pathPoint) (closed : bool).

Record context := {
  current : gstate;
  saved : list gstate;
  curPath : list pathPoint;
  curClosed : bool;
  painted : list paint
}.

Definition with_state (c : context) (g : gstate) : context :=
  {| current := g; saved := saved c; curPath := curPath c;
     curClosed := curClosed c; painted := painted c |}.

Definition add_transform (g : gstate) (x : xform) : gstate :=
  {| transform := transform g ++ [x]; fillStyle := fillStyle g;
     strokeStyle := strokeStyle g; lineWidth := lineWidth g |}.

Definition add_paint (c : context) (p : paint) : context :=
  {| current := current c; saved := saved c; curPath := curPath c;
     curClosed := curClosed c; painted := painted c ++ [p] |}.

Definition add_point (c : context) (line : bool) (x y : num) : context :=
  {| current := current c; saved := saved c;
     curPath := curPath c ++
       [{| pp_line := line; pp_transform := transform (current c);
           pp_x := x; pp_y := y |}];
     curClosed := curClosed c; painted := painted c |}.

(** Modelled from the spec: the drawing surface with its save/restore
    stack, translate and rotate, fill and stroke of paths; [clear]
    empties the canvas. *)
Definition exec1 (c : context) (cmd : drawCmd) : context :=
  match cmd with
  | CClear =>
      {| current := current c; saved := saved c; curPath := curPath c;
         curClosed := curClosed c; painted := [] |}
  | CSave =>
      {| current := current c; saved := current c :: saved c;
         curPath := curPath c; curClosed := curClosed c; painted := painted c |}
  | CRestore =>
      match saved c with
      | [] => c
      | g :: rest =>
          {| current := g; saved := rest; curPath := curPath c;
             curClosed := curClosed c; painted := painted c |}
      end
  | CTranslate x y => with_state c (add_transform (current c) (Translate x y))
  | CRotate a => with_state c (add_transform (current c) (Rotate a))
  | CFillStyle s =>
      with_state c {| transform := transform (current c); fillStyle := s;
                      strokeStyle := strokeStyle (current c);
                      lineWidth := lineWidth (current c) |}
  | CStrokeStyle s =>
      with_state c {| transform := transform (current c);
                      fillStyle := fillStyle (current c); strokeStyle := s;
                      lineWidth := lineWidth (current c) |}
  | CLineWidth w =>
      with_state c {| transform := transform (current c);
                      fillStyle := fillStyle (current c);
                      strokeStyle := strokeStyle (current c); lineWidth := w |}
  | CFill path => add_paint c (Filled (current c) path)
  | CStroke path => add_paint c (Stroked (current c) path)
  | CBeginPath =>
      {| current := current c; saved := saved c; curPath := [];
         curClosed := false; painted := painted c |}
  | CMoveTo x y => add_point c false x y
  | CLineTo x y => add_point c true x y
  | CClosePath =>
      {| current := current c; saved := saved c; curPath := curPath c;
         curClosed := true; painted := painted c |}
  | CStrokePath => add_paint c (StrokedOutline (current c) (curPath c) (curClosed c))
  end.

Definition exec (cmds : list drawCmd) (c : context) : context :=
  fold_left exec1 cmds c.

(** The points of the outline of [vs] as a path built under the
    transform [tf]: a move to the first vertex, lines to the others. *)
Definition outlinePoints (tf : list xform) (vs : list point) : list pathPoint :=
  match vs with
  | [] => []
  | v :: vs' =>
      {| pp_line := false; pp_transform := tf; pp_x := px v; pp_y := py v |} ::
      map (fun u => {| pp_line := true; pp_transform := tf;
                       pp_x := px u; pp_y := py u |}) vs'
  end.

(** What one pair leaves on the canvas, drawn from the drawing state
    [g]. *)
Definition paintsOf (cfg : Config) (g : gstate) (body : MBody) (shape : Shape)
  : list paint :=
  let tf := transform g ++
            [ Translate (px (position body)) (py (position body));
              Rotate (angle body);
              Translate (neg (px (centroid shape))) (neg (py (centroid shape))) ] in
  [ Filled {| transform := tf; fillStyle := fill shape;
              strokeStyle := strokeStyle g; lineWidth := lineWidth g |}
      (path2d shape);
    Stroked {| transform := tf; fillStyle := fill shape;
               strokeStyle := stroke (outline cfg);
               lineWidth := strokeWidth (outline cfg) |}
      (path2d shape) ] ++
  (if showBoundingBoxes (debug cfg) then
     [ StrokedOutline
         {| transform := transform g; fillStyle := fillStyle g;
            strokeStyle := "rgba(0,0,255,0.5)"; lineWidth := lineWidth g |}
         (outlinePoints (transform g) (vertices body))
         true ]
   else []).

End Canvas.

(** What [#initShapeCache] stores for a path element: the render path
    is the scaled path data the hull was sampled from, and the centroid
    is the centre of the stored hull. *)
Definition shape_of_path `{M : MatterLib} (vl sc : num) (el : PathEl) (sh : Shape)
  : Prop :=
  exists d,
    attr_d el = Some d /\
    path2d sh = scaleDString d sc /\
    sh_hull sh =
      (let rawVerts := pathToVertices (scaledEl el sc) vl in
       hull (if first_is_array rawVerts then flat rawVerts else rawVerts)) /\
    centroid sh = centre (sh_hull sh).

(** Every wall reference points to a static body. *)
Definition walls_static (st : State) : Prop :=
  forall w, w ∈ walls (self st) ->
    exists b, heap (page st) !! w = Some b /\ isStatic b = true.

(** Every body of the heap [h] is still there in [h'], static if it was
    static. *)
Definition keeps_static (h h' : list MBody) : Prop :=
  forall a b, h !! a = Some b ->
    exists b', h' !! a = Some b' /\ isStatic b' = isStatic b.




(** The configurations agree on every key but [debug.showBoundingBoxes]. *)
Definition same_but_boxes (c c' : Config) : Prop :=
  scale c' = scale c /\ physics c' = physics c /\
  mouseStiffness c' = mouseStiffness c /\ outline c' = outline c /\
  devMode (debug c') = devMode (debug c).

(** * The page script, [app.js] *)

Module App.
Section App.

Context {M : MatterLib}.

(** What the [DOMContentLoaded] handler's closure holds: the instance
    [physics] (with the page it lives on), the flag [isPaused], and what
    has been written to the console. *)
Record app := {
  physics_ : State;
  isPaused : bool;
  console : list string
}.

(** The object literal passed to the constructor; [scale0] is the
    value of [0.000725 * innerWidth]. *)
Definition customConfig (scale0 : num) : ConfigOv := {|
  ov_scale := Some scale0;
  ov_debug := Some {| ov_devMode := Some true; ov_showBoundingBoxes := Some false |};
  ov_physics := Some {| ov_restitution := Some (Fin {| mant := 65; expo := -2 |});
                        ov_friction := Some (of_Z 0);
                        ov_vertexLimit := None;
                        ov_simplifyTolerance := None;
                        ov_minimumArea := None;
                        ov_positionIterations := None;
                        ov_velocityIterations := None |};
  ov_mouseStiffness := None;
  ov_outline := None
|}.

(** The [DOMContentLoaded] handler: when the constructor throws, the
    handler ends there and registers nothing. *)
Definition onLoad (pg : Page) (scale0 : num) : result app :=
  match construct pg "#container" "svg" (customConfig scale0) with
  | (pg', Ok i) =>
      Ok {| physics_ := {| page := pg'; self := i |};
            isPaused := false;
            console := [] |}
  | (_, Throw e) => Throw e
  end.

(** The [keydown] listener of the script. *)
Definition onKeydown (key : string) (a : app) : app :=
  if String.eqb key "p" then
    if negb (isPaused a) then
      {| physics_ := fst (pause (physics_ a));
         console := console a ++ ["Physics paused"];
         isPaused := true |}
    else
      {| physics_ := fst (resume (physics_ a));
         console := console a ++ ["Physics resumed"];
         isPaused := false |}
  else a.

(** The [beforeunload] listener of the script. *)
Definition onBeforeunload (a : app) : app :=
  {| physics_ := fst (destroy (physics_ a));
     isPaused := isPaused a;
     console := console a |}.

Inductive appEvent :=
| Browser (ev : event)   (* an event the instance reacts to *)
| Beforeunload.          (* the page is about to unload *)

(** One event on the page.  The script's [keydown] listener is
    registered after the constructor has run, so it runs after the
    instance's. *)
Definition step (a : app) (e : appEvent) : app :=
  match e with
  | Browser ev =>
      let a' := {| physics_ := fst (deliver ev (physics_ a));
                   isPaused := isPaused a;
                   console := console a |} in
      match ev with
      | EvKeydown key => onKeydown key a'
      | _ => a'
      end
  | Beforeunload => onBeforeunload a
  end.

Definition steps (evs : list appEvent) (a : app) : app :=
  fold_left step evs a.

(** The number of times the key [p] went down. *)
Definition presses (evs : list appEvent) : nat :=
  length (List.filter
            (fun e => match e with
                      | Browser (EvKeydown key) => String.eqb key "p"
                      | _ => false
                      end) evs).

(** The console after [n] presses of [p]. *)
Definition messages (n : nat) : list string :=
  map (fun k => if Nat.even k then "Physics paused" else "Physics resumed")
      (seq 0 n).

End App.
End App.

(** The string holds a decimal digit. *)
Fixpoint has_digit (s : string) : bool :=
  match s with
  | String c s' => is_digit c || has_digit s'
  | EmptyString => false
  end.

(** * Properties *)

(** ** The pattern matcher *)

Lemma consume_Some c r m rest :
  consume c r = Some (m, rest) ->
  exists m', r = Some (m', rest) /\ m = String c m'.
Proof.
  destruct r as [[m' rest']|]; simpl; intros H; inversion H; subst; eauto.
Qed.

Lemma orelse_Some a b x :
  orelse a b = Some x -> a = Some x \/ (a = None /\ b = Some x).
Proof. destruct a; simpl; intros H; [left|right]; auto. Qed.

Lemma star_sound p r k :
  sound_for r k -> sound_for (Star p :: r) (star p k).
Proof.
  intros Hk s. induction s as [|c s IH]; intros m rest H; simpl in H.
  - apply Hk in H as [Hm ->]. split; [now constructor|reflexivity].
  - destruct (p c) eqn:Hp.
    + apply orelse_Some in H as [H|[_ H]].
      * apply consume_Some in H as (m' & H & ->).
        apply IH in H as [Hm ->]. split; [now constructor|reflexivity].
      * apply Hk in H as [Hm ->]. split; [now constructor|reflexivity].
    + apply Hk in H as [Hm ->]. split; [now constructor|reflexivity].
Qed.

Lemma exec_sound r : sound_for r (exec r).
Proof.
  induction r as [|a r IH]; intros s m rest H.
  - simpl in H. inversion H; subst. split; [constructor|reflexivity].
  - destruct a as [p|p|p|p]; simpl in H.
    + destruct s as [|c s]; [discriminate|].
      destruct (p c) eqn:Hp; [|discriminate].
      apply consume_Some in H as (m' & H & ->).
      apply IH in H as [Hm ->]. split; [now constructor|reflexivity].
    + destruct s as [|c s].
      * apply IH in H as [Hm ->]. split; [now constructor|reflexivity].
      * destruct (p c) eqn:Hp.
        -- apply orelse_Some in H as [H|[_ H]].
           ++ apply consume_Some in H as (m' & H & ->).
              apply IH in H as [Hm ->].
              split; [now apply matches_opt_take|reflexivity].
           ++ apply IH in H as [Hm ->]. split; [now constructor|reflexivity].
        -- apply IH in H as [Hm ->]. split; [now constructor|reflexivity].
    + now apply (star_sound p r (exec r) IH).
    + destruct s as [|c s]; [discriminate|].
      destruct (p c) eqn:Hp; [|discriminate].
      apply consume_Some in H as (m' & H & ->).
      apply (star_sound p r (exec r) IH) in H as [Hm ->].
      split; [now constructor|reflexivity].
Qed.

(** Every string the number pattern accepts ends in a digit; in
    particular it is not empty. *)
Lemma matches_plus_nonempty p m : matches [Plus p] m -> m <> EmptyString.
Proof. intros H. inversion H; subst; discriminate. Qed.

Lemma matches_opt_plus_nonempty q p m :
  matches [Opt q; Plus p] m -> m <> EmptyString.
Proof.
  intros H. inversion H; subst; [|discriminate].
  now apply (matches_plus_nonempty p).
Qed.

Lemma matches_star_opt_plus_nonempty d q p m :
  matches [Star d; Opt q; Plus p] m -> m <> EmptyString.
Proof.
  intros H. inversion H; subst; [|discriminate].
  now apply (matches_opt_plus_nonempty q p).
Qed.

Lemma matches_numberRe_nonempty m : matches numberRe m -> m <> EmptyString.
Proof.
  unfold numberRe. intros H. inversion H; subst; [|discriminate].
  now apply (matches_star_opt_plus_nonempty is_digit (Ascii.eqb ".") is_digit).
Qed.

Lemma exec_numberRe_nonempty s m rest :
  exec numberRe s = Some (m, rest) -> m <> EmptyString.
Proof. intros H. apply exec_sound in H as [H _]. now apply matches_numberRe_nonempty. Qed.

Lemma star_total p k s :
  (forall t, k t <> None) -> star p k s <> None.
Proof.
  intros Hk. induction s as [|c s IH]; simpl; [apply Hk|].
  destruct (p c); [|apply Hk].
  destruct (star p k s) as [[m r]|]; simpl; [discriminate|apply Hk].
Qed.

Lemma is_digit_not_minus c : is_digit c = true -> Ascii.eqb "-" c = false.
Proof.
  destruct (Ascii.eqb_spec "-" c) as [<-|]; [|reflexivity].
  vm_compute. discriminate.
Qed.

Lemma is_digit_not_dot c : is_digit c = true -> Ascii.eqb "." c = false.
Proof.
  destruct (Ascii.eqb_spec "." c) as [<-|]; [|reflexivity].
  vm_compute. discriminate.
Qed.

Lemma consume_not_None c r : r <> None -> consume c r <> None.
Proof. destruct r as [[m rest]|]; simpl; [discriminate|auto]. Qed.

Lemma orelse_not_None a b : b <> None -> orelse a b <> None.
Proof. destruct a; simpl; [discriminate|auto]. Qed.

Lemma exec_nil_total t : exec [] t <> None.
Proof. discriminate. Qed.

(** Where a digit stands, the number pattern matches. *)
Lemma exec_numberRe_digit c s :
  is_digit c = true -> exec numberRe (String c s) <> None.
Proof.
  intros Hd.
  assert (Hk : exec [Opt (Ascii.eqb "."); Plus is_digit] (String c s) <> None).
  { change (exec [Opt (Ascii.eqb "."); Plus is_digit] (String c s))
      with (if Ascii.eqb "." c
            then orelse (consume c (exec [Plus is_digit] s))
                        (exec [Plus is_digit] (String c s))
            else exec [Plus is_digit] (String c s)).
    rewrite (is_digit_not_dot c Hd).
    change (exec [Plus is_digit] (String c s))
      with (if is_digit c then consume c (star is_digit (exec []) s) else None).
    rewrite Hd. apply consume_not_None, star_total, exec_nil_total. }
  change (exec numberRe (String c s))
    with (if Ascii.eqb "-" c
          then orelse (consume c (exec (tl numberRe) s)) (exec (tl numberRe) (String c s))
          else exec (tl numberRe) (String c s)).
  rewrite (is_digit_not_minus c Hd).
  change (exec (tl numberRe) (String c s))
    with (if is_digit c
          then orelse
                 (consume c (star is_digit (exec [Opt (Ascii.eqb "."); Plus is_digit]) s))
                 (exec [Opt (Ascii.eqb "."); Plus is_digit] (String c s))
          else exec [Opt (Ascii.eqb "."); Plus is_digit] (String c s)).
  rewrite Hd. now apply orelse_not_None.
Qed.

(** ** Path-string scaling *)

Lemma string_length_app (a b : string) :
  String.length (a +:+ b) = (String.length a + String.length b)%nat.
Proof. induction a as [|c a IH]; simpl; [reflexivity|now rewrite IH]. Qed.

(** With fuel beyond the length of the string, the pieces spell the
    string, the replace writes them out with the literals replaced, and
    every piece is a match of the pattern or a character that is no
    digit. *)
Lemma pieces_fuel_spec (f : string -> string) (k : num) fuel :
  (forall m, f m = toString (mul (parseFloat m) k)) ->
  forall s, (String.length s < fuel)%nat ->
    source_of (pieces_fuel fuel s) = s /\
    replaceAll fuel numberRe f s = render k (pieces_fuel fuel s) /\
    Forall piece_ok (pieces_fuel fuel s).
Proof.
  intros Hf. induction fuel as [|fuel IH]; intros s Hlen; [lia|].
  destruct s as [|c s].
  - cbn [pieces_fuel replaceAll source_of render].
    change (exec numberRe EmptyString) with (@None (string * string)).
    repeat split; constructor.
  - cbn [pieces_fuel replaceAll].
    destruct (exec numberRe (String c s)) as [[m rest]|] eqn:E.
    + pose proof (exec_sound numberRe _ _ _ E) as [Hm Hs].
      destruct m as [|a m]; [now apply matches_numberRe_nonempty in Hm|].
      assert (Hr : (String.length rest < fuel)%nat).
      { apply (f_equal String.length) in Hs.
        rewrite string_length_app in Hs. simpl in Hs, Hlen. lia. }
      destruct (IH rest Hr) as (Hsrc & Hrep & Hok).
      cbn [source_of render]. rewrite Hsrc, Hrep, Hf.
      repeat split; [now symmetry|]. constructor; [exact Hm|exact Hok].
    + assert (Hr : (String.length s < fuel)%nat) by (simpl in Hlen; lia).
      destruct (IH s Hr) as (Hsrc & Hrep & Hok).
      cbn [source_of render]. rewrite Hsrc, Hrep.
      repeat split. constructor; [|exact Hok].
      simpl. destruct (is_digit c) eqn:Hd; [|reflexivity].
      now apply (exec_numberRe_digit c s) in Hd.
Qed.

(** [#scaleDString] on a few path strings. *)
Example scaleDString_examples :
  scaleDString "M10 20L-5.5,3.25z" (Fin (Dec 13 (-1))) = "M13 26L-7.15,4.225z" /\
  scaleDString "M1.5.5" (of_Z 2) = "M31" /\
  scaleDString "A5 5 0 1 1 10 10" (of_Z 2) = "A10 10 0 2 2 20 20" /\
  scaleDString "M1e2" (of_Z 2) = "M2e4".
Proof. repeat split; vm_compute; reflexivity. Qed.

Example scaleDString_collision :
  scaleDString "M0 0L4 0L1.5.5 2.5.5z" (of_Z 2) = "M0 0L8 0L31 51z" /\
  scaleDString "M0 0L4 0L15.5 25.5z" (of_Z 2) = "M0 0L8 0L31 51z".
Proof. split; vm_compute; reflexivity. Qed.

(** C4 on the path ["M1.5.5"] (move to [(1.5, .5)]), scaled by 2: the
    literals [1.5] and [.5] stand side by side, are written ["3"] and
    ["1"] with nothing between them, and the result ["M31"] has one
    literal, 31, where the scaled path has the two literals 3 and 1. *)
Lemma scaleDString_fuses_literals :
  scaleDString "M1.5.5" (of_Z 2) = "M31" /\
  literals "M1.5.5" = ["1.5"; ".5"] /\
  ~ scales_every_literal "M1.5.5" (of_Z 2).
Proof.
  split; [vm_compute; reflexivity|].
  split; [vm_compute; reflexivity|].
  unfold scales_every_literal. vm_compute. discriminate.
Qed.

(** What [#scaleDString] does on every string: it cuts the string into
    matches of the number pattern and single characters that are no
    digits, writes [String(parseFloat(m) * scale)] for every match [m]
    and copies every other character, in order. *)
Theorem scaleDString_rewrites_matches_only (d : string) (k : num) :
  source_of (pieces d) = d /\
  scaleDString d k = render k (pieces d) /\
  Forall piece_ok (pieces d).
Proof.
  unfold scaleDString, pieces.
  apply (pieces_fuel_spec (fun n => toString (mul (parseFloat n) k)) k);
    [reflexivity|lia].
Qed.

(** ** The facade *)
Section FacadeProperties.

Context {M : MatterLib}.

(** *** Construction *)

(** C6: when the container selector resolves to nothing the constructor
    throws "Invalid container selector"; the page is as it was (no body,
    no listener, no decomp registration) and no instance comes back. *)
Theorem construct_invalid_container (pg : Page)
    (containerSel svgSelector : string) (custom : ConfigOv) :
  querySelector (doc pg) containerSel = None ->
  construct pg containerSel svgSelector custom =
    (pg, Throw (Error "Invalid container selector")).
Proof. intros H. unfold construct. now rewrite H. Qed.




Lemma cacheShape_fill (vl sc : num) (el : PathEl) (sh : Shape) :
  cacheShape vl sc el = Ok sh -> fill_rule el sh.
Proof.
  unfold cacheShape. destruct (attr_d el) as [rawD|]; [|discriminate].
  intros H. inversion H; subst; clear H. unfold fill_rule; cbn [fill].
  split.
  - intros [->| ->]; reflexivity.
  - intros v -> Hv. simpl. destruct (String.eqb_spec v EmptyString); [contradiction|reflexivity].
Qed.

Lemma cacheShapes_fill (vl sc : num) (els : list PathEl) :
  Forall (fun el => is_Some (attr_d el)) els ->
  forall acc, exists new,
    cacheShapes vl sc els acc = Ok (acc ++ new) /\ Forall2 fill_rule els new.
Proof.
  induction 1 as [|el els [rawD Hd] _ IH]; intros acc.
  - exists []. rewrite app_nil_r. split; [reflexivity|constructor].
  - cbn [cacheShapes].
    destruct (cacheShape vl sc el) as [sh|e] eqn:E.
    + destruct (IH (acc ++ [sh])) as (new & Hnew & Hall).
      exists (sh :: new). rewrite Hnew, <- app_assoc. split; [reflexivity|].
      constructor; [now apply (cacheShape_fill vl sc)|exact Hall].
    + unfold cacheShape in E. rewrite Hd in E. discriminate.
Qed.

(** C10: the shape cached for a path element has the element's [fill]
    attribute as its fill style, and ["#3498db"] when the attribute is
    absent or empty.  (Every path carries a [d] attribute, otherwise
    [rawD.replace] throws before any shape is cached.) *)
Theorem initShapeCache_fill (d : Document) (svgSelector : string)
    (vl sc : num) (svg : nat) :
  querySelector d svgSelector = Some svg ->
  Forall (fun el => is_Some (attr_d el)) (paths (elementAt d svg)) ->
  exists cache,
    initShapeCache d [] svgSelector vl sc = Ok cache /\
    Forall2 fill_rule (paths (elementAt d svg)) cache.
Proof.
  intros Hq Hd. unfold initShapeCache. rewrite Hq.
  destruct (cacheShapes_fill vl sc _ Hd []) as (new & H & Hall).
  exists new. split; [exact H|exact Hall].
Qed.

(** The centroid of a cached shape is the hull centroid of the element
    with the scaled path data. *)
Lemma cacheShape_centroid (vl sc : num) (el : PathEl) (sh : Shape) :
  cacheShape vl sc el = Ok sh ->
  centroid sh = hullCentroidOf vl (scaledEl el sc).
Proof.
  unfold cacheShape, hullCentroidOf, scaledEl.
  destruct (attr_d el) as [rawD|]; [|discriminate].
  intros H. inversion H; subst; clear H. reflexivity.
Qed.

(** Two outlines that [#scaleDString] sends to the same string: a
    trapezoid on [(1.5, .5)] and [(2.5, .5)], written without separators,
    and a triangle with the apex [(15.5, 25.5)].  An engine for which the
    scaling law holds gives both the same doubled centroid. *)
Lemma scaling_law_identifies_outlines (vl : num) (fillAttr : option string) :
  scaling_law vl ->
  scalePoint (of_Z 2)
    (hullCentroidOf vl {| attr_d := Some "M0 0L4 0L1.5.5 2.5.5z";
                          attr_fill := fillAttr |}) =
  scalePoint (of_Z 2)
    (hullCentroidOf vl {| attr_d := Some "M0 0L4 0L15.5 25.5z";
                          attr_fill := fillAttr |}).
Proof.
  intros Hlaw. rewrite <- !Hlaw. unfold scaledEl.
  cbn [attr_d attr_fill option_map].
  destruct scaleDString_collision as [-> ->]. reflexivity.
Qed.

(** *** Lifecycle methods *)

(** C9, amended: [pause()] and [resume()] return the instance;
    [destroy()] returns [undefined]. *)
Theorem lifecycle_return_values (st : State) :
  snd (pause st) = RetThis /\
  snd (resume st) = RetThis /\
  snd (destroy st) = RetUndefined.
Proof. repeat split. Qed.

Lemma runListener_log (key : string) (ls : list listener) :
  forall i log,
    snd (fold_left (runListener key) ls (i, log)) =
    log ++ map (fun _ => CbKeydown) ls.
Proof.
  induction ls as [|l ls IH]; intros i log; simpl.
  - now rewrite app_nil_r.
  - destruct l. unfold runListener at 2. cbn [fst snd].
    rewrite IH, <- app_assoc. reflexivity.
Qed.

(** Every [keydown] listener on the window runs on every key. *)
Lemma deliver_keydown_log (key : string) (st : State) :
  snd (deliver (EvKeydown key) st) =
  map (fun _ => CbKeydown) (keydown (page st)).
Proof.
  cbn [deliver].
  pose proof (runListener_log key (keydown (page st)) (self st) []) as H.
  destruct (fold_left (runListener key) (keydown (page st)) (self st, []))
    as [i' log].
  exact H.
Qed.

(** *** Body creation *)

Local Open Scope nat_scope.

Lemma createBody_config (off : num * num) (st : State) (sh : Shape) :
  config (self (createBody off st sh)) = config (self st).
Proof. unfold createBody. destruct (bodyFor _ off sh); reflexivity. Qed.

Lemma withBodies_nil (st : State) : withBodies st [] [] = st.
Proof.
  destruct st as [[d h k ds pd] [cfg c ss sc bs ws [wb wc pi vi] r p t]].
  unfold withBodies, set_heap, set_bodies, set_engine. cbn.
  now rewrite !app_nil_r.
Qed.

Lemma withBodies_cons (st : State) (b : MBody) (sh : Shape)
    (bs : list MBody) (shs : list Shape) :
  withBodies (withBodies st [b] [sh]) bs shs = withBodies st (b :: bs) (sh :: shs).
Proof.
  destruct st as [[d h k ds pd] [cfg c ss sc bds ws [wb wc pi vi] r p t]].
  unfold withBodies, set_heap, set_bodies, set_engine. cbn.
  rewrite !length_app. cbn.
  replace (length h + 1) with (S (length h)) by lia.
  rewrite <- !app_assoc. reflexivity.
Qed.

(** [#createBodies] in closed form: the bodies [Bodies.fromVertices]
    yields are allocated in cache order and paired with the shapes that
    yielded them. *)
Lemma createBody_fold (off : num * num) (shapes : list Shape) :
  forall st,
    fold_left (createBody off) shapes st =
    withBodies st (omap (bodyFor (config (self st)) off) shapes)
      (List.filter (passes (config (self st)) off) shapes).
Proof.
  induction shapes as [|sh shapes IH]; intros st.
  - simpl. now rewrite withBodies_nil.
  - cbn [fold_left]. rewrite IH, createBody_config.
    cbn [omap list_omap List.filter]. unfold passes at 2, createBody.
    destruct (bodyFor (config (self st)) off sh) as [b|] eqn:E.
    + rewrite <- withBodies_cons. reflexivity.
    + reflexivity.
Qed.



Lemma handleResize_bodies (st : State) :
  bodies (self (fst (handleResize st))) = bodies (self st) /\
  p5 (self (fst (handleResize st))) =
    resizeCanvas (p5 (self st))
      (clientWidth (elementAt (doc (page st)) (container (self st))))
      (clientHeight (elementAt (doc (page st)) (container (self st)))).
Proof.
  unfold handleResize, moveWall. cbn [self set_p5 walls].
  destruct (walls (self st) !! 0) as [a0|]; [|split; reflexivity].
  cbn [set_page self walls set_p5].
  destruct (walls (self st) !! 2) as [a2|]; split; reflexivity.
Qed.


Lemma runListener_bodies (key : string) (ls : list listener) :
  forall i log,
    bodies (fst (fold_left (runListener key) ls (i, log))) = bodies i /\
    p5 (fst (fold_left (runListener key) ls (i, log))) = p5 i.
Proof.
  induction ls as [|l ls IH]; intros i log; [split; reflexivity|].
  cbn [fold_left]. destruct l. unfold runListener at 2 4. cbn [fst snd].
  destruct (IH (onKeydown key i) (log ++ [CbKeydown])) as [-> ->].
  unfold onKeydown. destruct (String.eqb key "b"); split; reflexivity.
Qed.











(** *** The resize handler *)

Lemma moveWall_frame (st st' : State) (k : nat) (pos : point) :
  moveWall st k pos = Ok st' ->
  self st' = self st /\
  exists h',
    page st' = set_heap (page st) h' /\
    length h' = length (heap (page st)) /\
    forall a, a ∉ walls (self st) -> h' !! a = heap (page st) !! a.
Proof.
  unfold moveWall. destruct (walls (self st) !! k) as [w|] eqn:E; [|discriminate].
  intros H. inversion H; subst; clear H. split; [reflexivity|].
  eexists. split; [reflexivity|]. split; [apply length_alter|].
  intros a Ha. apply list_lookup_alter_ne. intros ->.
  apply Ha. now apply list_elem_of_lookup_2 in E.
Qed.

(** [#handleResize] writes the canvas size, and heap cells of walls;
    nothing else. *)
Lemma handleResize_frame (st : State) :
  let el := elementAt (doc (page st)) (container (self st)) in
  let st' := fst (handleResize st) in
  self st' =
    set_p5 (self st) (resizeCanvas (p5 (self st)) (clientWidth el) (clientHeight el)) /\
  exists h',
    page st' = set_heap (page st) h' /\
    length h' = length (heap (page st)) /\
    forall a, a ∉ walls (self st) -> h' !! a = heap (page st) !! a.
Proof.
  cbn zeta. unfold handleResize.
  set (st1 := {| page := page st; self := set_p5 (self st) _ |}).
  assert (Hid : exists h', page st1 = set_heap (page st) h' /\
                  length h' = length (heap (page st)) /\
                  forall a, a ∉ walls (self st) -> h' !! a = heap (page st) !! a).
  { exists (heap (page st)). split; [now destruct (page st)|]. split; auto. }
  destruct (moveWall st1 0 _) as [st2|e] eqn:E1; [|split; [reflexivity|exact Hid]].
  apply moveWall_frame in E1 as (Hs2 & h2 & Hp2 & Hl2 & Hf2).
  assert (H2 : exists h', page st2 = set_heap (page st) h' /\
                  length h' = length (heap (page st)) /\
                  forall a, a ∉ walls (self st) -> h' !! a = heap (page st) !! a).
  { exists h2. split; [rewrite Hp2; now destruct (page st)|]. split; [exact Hl2|].
    intros a Ha. now apply Hf2. }
  destruct (moveWall st2 2 _) as [st3|e] eqn:E2; cbn [fst].
  - apply moveWall_frame in E2 as (Hs3 & h3 & Hp3 & Hl3 & Hf3).
    split; [now rewrite Hs3, Hs2|].
    destruct H2 as (h' & Hp' & Hl' & Hf').
    exists h3. split; [rewrite Hp3, Hp'; now destruct (page st)|].
    rewrite Hp' in Hl3, Hf3. cbn [set_heap heap] in Hl3, Hf3.
    split; [lia|]. intros a Ha. rewrite Hf3; [now apply Hf'|].
    rewrite Hs2. exact Ha.
  - split; [exact Hs2|exact H2].
Qed.

Lemma refs_apart_same (st st' : State) :
  bodies (self st') = bodies (self st) ->
  walls (self st') = walls (self st) ->
  length (heap (page st')) = length (heap (page st)) ->
  refs_apart st -> refs_apart st'.
Proof.
  unfold refs_apart. intros -> -> ->. auto.
Qed.

Lemma refs_apart_withBodies (st : State) (bs : list MBody) (shs : list Shape) :
  refs_apart st -> refs_apart (withBodies st bs shs).
Proof.
  intros (Hb & Hw & Hd). unfold refs_apart, withBodies.
  cbn [self page set_bodies set_engine set_heap bodies walls heap].
  rewrite length_app. repeat split.
  - intros a sh [Hin|Hin]%elem_of_app.
    + apply Hb in Hin. lia.
    + apply elem_of_zip_l in Hin. apply elem_of_seq in Hin. lia.
  - intros w Hin. apply Hw in Hin. lia.
  - intros a sh [Hin|Hin]%elem_of_app.
    + now apply (Hd a sh).
    + apply elem_of_zip_l in Hin. apply elem_of_seq in Hin.
      intros Hwall. apply Hw in Hwall. lia.
Qed.

Lemma refs_apart_createWalls (st : State) :
  refs_apart st -> refs_apart (createWalls st).
Proof.
  intros (Hb & Hw & Hd). unfold refs_apart, createWalls.
  cbn [self page set_walls set_engine set_heap bodies walls heap].
  rewrite length_app. cbn [wallsFor length]. repeat split.
  - intros a sh Hin. apply Hb in Hin. lia.
  - intros w Hin. repeat (apply elem_of_cons in Hin as [->|Hin]); try lia.
    now apply elem_of_nil in Hin.
  - intros a sh Hin Hwall. apply Hb in Hin.
    repeat (apply elem_of_cons in Hwall as [->|Hwall]); try lia.
    now apply elem_of_nil in Hwall.
Qed.

Lemma refs_apart_setup (st : State) : refs_apart st -> refs_apart (setup st).
Proof.
  intros H. unfold setup. apply refs_apart_createWalls.
  unfold createBodies. rewrite createBody_fold. apply refs_apart_withBodies.
  revert H. apply refs_apart_same; reflexivity.
Qed.

Lemma engineUpdate_length (upd : MBody -> MBody) (e : Engine) (h : list MBody) :
  length (engineUpdate upd e h) = length h.
Proof.
  unfold engineUpdate. revert h.
  induction (world_bodies e) as [|a l IH]; intros h; [reflexivity|].
  cbn [fold_left]. now rewrite IH, length_alter.
Qed.

Lemma runListener_refs (key : string) (ls : list listener) :
  forall i log,
    bodies (fst (fold_left (runListener key) ls (i, log))) = bodies i /\
    walls (fst (fold_left (runListener key) ls (i, log))) = walls i.
Proof.
  induction ls as [|l ls IH]; intros i log; [split; reflexivity|].
  cbn [fold_left]. destruct l. unfold runListener at 2 4. cbn [fst snd].
  destruct (IH (onKeydown key i) (log ++ [CbKeydown])) as [-> ->].
  unfold onKeydown. destruct (String.eqb key "b"); split; reflexivity.
Qed.

(** The step changes neither [bodies] nor [walls] nor the size of the
    heap. *)
Ltac same_refs H :=
  revert H; apply refs_apart_same; try reflexivity.

Lemma refs_apart_run (a : action) (st : State) :
  refs_apart st -> refs_apart (run a st).
Proof.
  intros H. destruct a as [ev| | |]; try (same_refs H; fail).
  destruct ev as [| | | |key|w h|upd]; cbn [run deliver].
  - destruct (_ || _); [exact H|]. cbn [fst].
    apply refs_apart_setup in H. same_refs H.
  - destruct (_ || _); exact H.
  - destruct (removed _); [exact H|]. same_refs H.
  - destruct (resizeTimer (self st)); [|exact H]. cbn [fst].
    destruct (handleResize_frame {| page := page st; self := set_timer (self st) false |})
      as (Hs & h' & Hp & Hl & _).
    cbn zeta in Hs. same_refs H.
    + now rewrite Hs.
    + now rewrite Hs.
    + rewrite Hp. exact Hl.
  - destruct (runListener_refs key (keydown (page st)) (self st) []) as [Hb Hw].
    destruct (fold_left (runListener key) (keydown (page st)) (self st, []))
      as [i' log]. cbn [fst snd] in *.
    same_refs H; assumption.
  - same_refs H.
  - destruct (running _); [|exact H]. cbn [fst].
    same_refs H. cbn [set_page page set_heap heap]. apply engineUpdate_length.
Qed.

Lemma construct_fields (pg pg' : Page) (cs ss : string) (custom : ConfigOv)
    (i : Instance) :
  construct pg cs ss custom = (pg', Ok i) ->
  bodies i = [] /\ walls i = [] /\ started (p5 i) = false /\ removed (p5 i) = false.
Proof.
  unfold construct. destruct (querySelector (doc pg) cs); [|discriminate].
  destruct (initShapeCache _ _ _ _ _); [|discriminate].
  cbn [initMatter]. intros H. inversion H; subst. repeat split.
Qed.

(** In every state an instance can be in, the dynamic bodies and the
    walls are different Matter bodies. *)
Lemma reachable_refs_apart (pg : Page) (cs ss : string) (custom : ConfigOv)
    (st : State) :
  reachable pg cs ss custom st -> refs_apart st.
Proof.
  induction 1 as [pg' i Hc|a st _ IH].
  - apply construct_fields in Hc as (Hb & Hw & _).
    unfold refs_apart. cbn [self page]. rewrite Hb, Hw.
    repeat split; intros; exfalso;
      match goal with H : _ ∈ [] |- _ => now apply elem_of_nil in H end.
  - now apply refs_apart_run.
Qed.

(** C5: in every state the instance can be in, [#handleResize] leaves
    [this.bodies], the shape cache, the world's body list and the number
    of Matter bodies as they are, and the Matter body of every dynamic
    body (position, velocity and the rest) is the same before and after.
    The state afterwards is the state before with the canvas resized and
    with a heap that differs in cells of walls only. *)
Theorem handleResize_keeps_bodies (pg : Page) (cs ss : string)
    (custom : ConfigOv) (st : State) :
  reachable pg cs ss custom st ->
  let el := elementAt (doc (page st)) (container (self st)) in
  let st' := fst (handleResize st) in
  bodies (self st') = bodies (self st) /\
  shapeCache (self st') = shapeCache (self st) /\
  walls (self st') = walls (self st) /\
  engine (self st') = engine (self st) /\
  config (self st') = config (self st) /\
  length (heap (page st')) = length (heap (page st)) /\
  (forall a sh, (a, sh) ∈ bodies (self st) ->
     heap (page st') !! a = heap (page st) !! a) /\
  (forall a, a ∉ walls (self st) ->
     heap (page st') !! a = heap (page st) !! a) /\
  self st' =
    set_p5 (self st)
      (resizeCanvas (p5 (self st)) (clientWidth el) (clientHeight el)) /\
  page st' = set_heap (page st) (heap (page st')).
Proof.
  intros Hr. apply reachable_refs_apart in Hr as (_ & _ & Hd).
  destruct (handleResize_frame st) as (Hs & h' & Hp & Hl & Hf).
  cbn zeta in *. rewrite Hs, Hp.
  cbn [set_p5 set_heap bodies shapeCache walls engine config heap].
  repeat split; try assumption.
  intros a sh Hin. apply Hf. now apply (Hd a sh).
Qed.

(** *** After [destroy()] *)

Lemma resizeCanvas_removed (p : P5) (w h : Z) :
  removed (resizeCanvas p w h) = removed p.
Proof. unfold resizeCanvas. destruct (canvas p); reflexivity. Qed.

(** A removed p5 instance stays removed. *)
Lemma run_keeps_removed (a : action) (st : State) :
  removed (p5 (self st)) = true -> removed (p5 (self (run a st))) = true.
Proof.
  intros Hr. destruct a as [ev| | |]; try exact Hr; try reflexivity.
  destruct ev as [| | | |key|w h|upd]; cbn [run deliver].
  - now rewrite Hr.
  - now rewrite Hr.
  - now rewrite Hr.
  - destruct (resizeTimer (self st)); [|exact Hr]. cbn [fst].
    destruct (handleResize_bodies
      {| page := page st; self := set_timer (self st) false |}) as [_ ->].
    now rewrite resizeCanvas_removed.
  - destruct (runListener_bodies key (keydown (page st)) (self st) []) as [_ Hp].
    destruct (fold_left (runListener key) (keydown (page st)) (self st, []))
      as [i' log]. cbn [fst snd self] in *. now rewrite Hp.
  - exact Hr.
  - destruct (running _); exact Hr.
Qed.

(** No action on an instance adds or removes a window listener. *)
Lemma run_keeps_keydown (a : action) (st : State) :
  keydown (page (run a st)) = keydown (page st).
Proof.
  destruct a as [ev| | |]; try reflexivity.
  destruct ev as [| | | |key|w h|upd]; cbn [run deliver].
  - destruct (_ || _); [reflexivity|]. cbn [fst page].
    unfold setup, createWalls, createBodies. cbn [page set_heap keydown].
    rewrite createBody_fold. reflexivity.
  - destruct (_ || _); reflexivity.
  - destruct (removed _); reflexivity.
  - destruct (resizeTimer (self st)); [|reflexivity]. cbn [fst].
    destruct (handleResize_frame {| page := page st; self := set_timer (self st) false |})
      as (_ & h' & Hp & _).
    cbn zeta in Hp. rewrite Hp. reflexivity.
  - destruct (fold_left (runListener key) (keydown (page st)) (self st, []))
      as [i' log]. reflexivity.
  - reflexivity.
  - destruct (running _); reflexivity.
Qed.

Lemma runAll_keeps_removed (acts : list action) :
  forall st, removed (p5 (self st)) = true ->
             removed (p5 (self (runAll acts st))) = true.
Proof.
  induction acts as [|a acts IH]; intros st Hr; [exact Hr|].
  apply (IH (run a st)). now apply run_keeps_removed.
Qed.

Lemma runAll_keeps_keydown (acts : list action) :
  forall st, keydown (page (runAll acts st)) = keydown (page st).
Proof.
  induction acts as [|a acts IH]; intros st; [reflexivity|].
  cbn [runAll fold_left]. fold (runAll acts (run a st)).
  now rewrite IH, run_keeps_keydown.
Qed.

(** C3, amended: [destroy()] empties the world and removes the p5
    instance; from then on, whatever happens, p5 runs none of the hooks
    ([setup], [draw], [windowResized]), and a second [destroy()] finds
    nothing left to do and changes nothing.  The [keydown] listener of
    dev mode stays on the window for good and runs on every key. *)
Theorem destroy_detaches_p5_hooks (st : State) :
  let st1 := fst (destroy st) in
  fst (destroy st1) = st1 /\
  world_bodies (engine (self st1)) = [] /\
  world_constraints (engine (self st1)) = [] /\
  forall acts : list action,
    let st2 := runAll acts st1 in
    (forall ev, p5_event ev = true -> snd (deliver ev st2) = []) /\
    keydown (page st2) = keydown (page st) /\
    (forall key,
       snd (deliver (EvKeydown key) st2) =
       map (fun _ => CbKeydown) (keydown (page st))).
Proof.
  cbn zeta. split; [reflexivity|]. split; [reflexivity|]. split; [reflexivity|].
  intros acts.
  assert (Hr : removed (p5 (self (runAll acts (fst (destroy st))))) = true)
    by now apply runAll_keeps_removed.
  assert (Hk : keydown (page (runAll acts (fst (destroy st)))) = keydown (page st))
    by now rewrite runAll_keeps_keydown.
  split; [|split; [exact Hk|]].
  - intros [| | | | | |] Hev; try discriminate Hev; cbn [deliver]; now rewrite Hr.
  - intros key. now rewrite deliver_keydown_log, Hk.
Qed.

(** With the three walls of [#createWalls] in place, [#handleResize]
    moves the floor and the right wall to the edges of the container's
    current box and does not touch the left wall. *)
Lemma handleResize_moves_floor_and_right (st : State) (a0 a1 a2 : nat) :
  walls (self st) = [a0; a1; a2] ->
  a0 <> a1 -> a1 <> a2 -> a0 <> a2 ->
  let el := elementAt (doc (page st)) (container (self st)) in
  let w := of_Z (clientWidth el) in
  let h := of_Z (clientHeight el) in
  let st' := fst (handleResize st) in
  snd (handleResize st) = None /\
  position <$> heap (page st') !! a0 =
    (fun _ => Pt (half w) (add h (of_Z 50))) <$> heap (page st) !! a0 /\
  heap (page st') !! a1 = heap (page st) !! a1 /\
  position <$> heap (page st') !! a2 =
    (fun _ => Pt (add w (of_Z 50)) (half h)) <$> heap (page st) !! a2.
Proof.
  intros Hw H01 H12 H02. cbn zeta. unfold handleResize, moveWall.
  cbn [self set_p5 walls set_page page]. rewrite Hw. cbn [lookup list_lookup].
  cbn [self set_p5 walls set_page page]. rewrite Hw. cbn [lookup list_lookup].
  cbn [fst snd page set_heap heap set_page].
  split; [reflexivity|].
  split; [|split].
  - rewrite list_lookup_alter_ne by congruence.
    rewrite list_lookup_alter_eq.
    destruct (heap (page st) !! a0); reflexivity.
  - rewrite !list_lookup_alter_ne by congruence. reflexivity.
  - rewrite list_lookup_alter_eq, list_lookup_alter_ne by congruence.
    destruct (heap (page st) !! a2); reflexivity.
Qed.

End FacadeProperties.

(** ** Concrete runs *)

(** The demo instance can be in its booted state. *)
Lemma booted_reachable :
  exists st,
    Demo.booted = Some st /\
    reachable (M := Demo.demoMatter)
      (Demo.demoPage [Demo.pathA; Demo.pathB; Demo.pathC])
      "#container" "svg" Demo.devModeOn st.
Proof.
  eexists. split; [reflexivity|].
  apply (reach_run (M := Demo.demoMatter) _ _ _ _ (Deliver EvSetup)).
  apply reach_new. reflexivity.
Qed.

(** C2 on the demo instance: the container grows from 800 by 600 to 800
    by 1000 and the debounced handler runs.  Floor and right wall are at
    the new edges; the left wall is still at (-50, 300), the middle of
    the old left edge, where [#createWalls] would put it at (-50, 500).
    Its corners reach down to y = 900 only, short of the new floor line
    y = 1000. *)
Theorem handleResize_leaves_left_wall :
  exists st,
    Demo.booted = Some st /\
    let st' := Demo.runs [Deliver (EvLayout 800 1000);
                          Deliver EvResize; Deliver EvTimeout] st in
    wallPositions st' =
      [ Some (Pt (of_Z 400) (of_Z 1050));
        Some (Pt (of_Z (-50)) (of_Z 300));
        Some (Pt (of_Z 850) (of_Z 500)) ] /\
    edgePositions 800 1000 =
      [ Pt (of_Z 400) (of_Z 1050);
        Pt (of_Z (-50)) (of_Z 500);
        Pt (of_Z 850) (of_Z 500) ] /\
    wallVertices st' !! 1%nat =
      Some (Some [ Pt (of_Z (-100)) (of_Z (-300)); Pt (of_Z 0) (of_Z (-300));
                   Pt (of_Z 0) (of_Z 900); Pt (of_Z (-100)) (of_Z 900) ]) /\
    ~ walls_at_edges st'.
Proof.
  eexists. split; [reflexivity|]. cbn zeta.
  split; [vm_compute; reflexivity|].
  split; [vm_compute; reflexivity|].
  split; [vm_compute; reflexivity|].
  unfold walls_at_edges. vm_compute. discriminate.
Qed.

(** C3, as stated, fails: the demo instance runs in dev mode; after
    [destroy()] its [keydown] listener is still on the window, a key
    still runs it, and "b" still flips [showBoundingBoxes]. *)
Lemma destroy_leaves_keydown_listener :
  exists st,
    Demo.booted = Some st /\
    let st1 := fst (destroy st) in
    keydown (page st1) = [ToggleBoundingBoxes] /\
    snd (deliver (M := Demo.demoMatter) (EvKeydown "b") st1) = [CbKeydown] /\
    showBoundingBoxes (debug (config (self st1))) = false /\
    showBoundingBoxes (debug (config (self
      (fst (deliver (M := Demo.demoMatter) (EvKeydown "b") st1))))) = true /\
    ~ no_callback_fires (M := Demo.demoMatter) st1.
Proof.
  eexists. split; [reflexivity|]. cbn zeta.
  repeat (split; [vm_compute; reflexivity|]).
  intros H. specialize (H (EvKeydown "b")). vm_compute in H. discriminate.
Qed.

(** A resize that is still waiting out its debounce delay when
    [destroy()] is called runs [#handleResize] all the same: [destroy()]
    does not clear the timer. *)
Example destroy_keeps_pending_resize :
  option_map
    (fun st =>
       snd (deliver (M := Demo.demoMatter) EvTimeout
              (fst (destroy (Demo.runs [Deliver EvResize] st)))))
    Demo.booted
  = Some [CbHandleResize].
Proof. vm_compute. reflexivity. Qed.

(** C9, as stated, fails for [destroy()]: it returns [undefined]. *)
Lemma destroy_returns_undefined :
  exists st, Demo.booted = Some st /\ snd (destroy st) <> RetThis.
Proof. eexists. split; [reflexivity|]. simpl. discriminate. Qed.

(** ** The theorems at concrete inputs *)

(** No element answers to ["#nowhere"] on the demo page. *)
Lemma construct_invalid_container_witness :
  querySelector (doc (Demo.demoPage [Demo.pathA])) "#nowhere" = None /\
  construct (M := Demo.demoMatter) (Demo.demoPage [Demo.pathA])
    "#nowhere" "svg" noOverrides =
    (Demo.demoPage [Demo.pathA], Throw (Error "Invalid container selector")).
Proof.
  split; [reflexivity|].
  apply (construct_invalid_container (M := Demo.demoMatter)). reflexivity.
Defined.


(** The three demo paths: no [fill], the fill [red], an empty [fill]. *)
Lemma initShapeCache_fill_witness :
  querySelector (Demo.demoDoc [Demo.pathA; Demo.pathB; Demo.pathC]) "svg"
    = Some 1%nat /\
  exists cache,
    initShapeCache (M := Demo.demoMatter)
      (Demo.demoDoc [Demo.pathA; Demo.pathB; Demo.pathC]) [] "svg"
      (of_Z 14) (of_Z 1) = Ok cache /\
    Forall2 fill_rule [Demo.pathA; Demo.pathB; Demo.pathC] cache.
Proof.
  split; [reflexivity|].
  apply (initShapeCache_fill (M := Demo.demoMatter)
           (Demo.demoDoc [Demo.pathA; Demo.pathB; Demo.pathC]) "svg"
           (of_Z 14) (of_Z 1) 1%nat).
  - reflexivity.
  - repeat constructor; eexists; reflexivity.
Defined.

Example demo_fill_styles :
  option_map (fun st => map fill (shapeCache (self st)))
    (Demo.built (Demo.demoPage [Demo.pathA; Demo.pathB; Demo.pathC])
       "#container" "svg" noOverrides)
  = Some ["#3498db"; "red"; "#3498db"].
Proof. vm_compute. reflexivity. Qed.


(** The booted demo instance, resized. *)
Lemma handleResize_keeps_bodies_witness :
  exists st,
    Demo.booted = Some st /\
    length (bodies (self st)) = 2%nat /\
    bodies (self (fst (handleResize st))) = bodies (self st).
Proof.
  eexists. split; [reflexivity|]. split; [reflexivity|].
  apply (handleResize_keeps_bodies (M := Demo.demoMatter)
           (Demo.demoPage [Demo.pathA; Demo.pathB; Demo.pathC])
           "#container" "svg" Demo.devModeOn).
  apply (reach_run (M := Demo.demoMatter) _ _ _ _ (Deliver EvSetup)).
  apply reach_new. reflexivity.
Defined.

(** The booted demo instance, destroyed; then a key goes down and a
    frame is due. *)
Lemma destroy_detaches_p5_hooks_witness :
  exists st,
    Demo.booted = Some st /\
    p5_event EvFrame = true /\
    snd (deliver (M := Demo.demoMatter) EvFrame
           (runAll (M := Demo.demoMatter) [Deliver (EvKeydown "b")]
              (fst (destroy st)))) = [] /\
    snd (deliver (M := Demo.demoMatter) EvFrame st) = [CbDraw].
Proof.
  eexists. split; [reflexivity|]. split; [reflexivity|]. split.
  - apply (destroy_detaches_p5_hooks (M := Demo.demoMatter)). reflexivity.
  - reflexivity.
Defined.

(** * Further properties *)

(** ** Exact arithmetic of the number model *)

Lemma ten_nonzero : ~ (10 == 0)%Q.
Proof. discriminate. Qed.


Lemma strip10_val (fuel : nat) : forall m e,
  (dval (strip10 fuel m e) == inject_Z m * 10 ^ e)%Q.
Proof.
  induction fuel as [|fuel IH]; intros m e; cbn [strip10]; [reflexivity|].
  destruct (m mod 10 =? 0) eqn:E; [|reflexivity].
  rewrite IH. apply Z.eqb_eq in E.
  assert (Hm : m = 10 * (m / 10)) by (pose proof (Z.div_mod m 10); lia).
  rewrite Hm at 2. rewrite inject_Z_mult, Qpower_plus by apply ten_nonzero.
  change (10 ^ 1)%Q with 10%Q. change (inject_Z 10) with 10%Q. ring.
Qed.

Lemma norm_val (m e : Z) : (dval (norm m e) == inject_Z m * 10 ^ e)%Q.
Proof.
  unfold norm. destruct (m =? 0) eqn:E.
  - apply Z.eqb_eq in E. subst. unfold dval. cbn [mant expo]. ring.
  - apply strip10_val.
Qed.

Lemma shift_val (m k e : Z) :
  0 <= k -> (inject_Z (m * 10 ^ k) * 10 ^ e == inject_Z m * 10 ^ (k + e))%Q.
Proof.
  intros Hk. rewrite inject_Z_mult, Zpower_Qpower by exact Hk.
  rewrite Qpower_plus by apply ten_nonzero. change (inject_Z 10) with 10%Q. ring.
Qed.

Lemma align_val (a b : dec) :
  let '(ma, mb, e) := align a b in
  (inject_Z ma * 10 ^ e == dval a)%Q /\ (inject_Z mb * 10 ^ e == dval b)%Q.
Proof.
  unfold align, dval. split.
  - rewrite shift_val by lia. now replace (expo a - Z.min (expo a) (expo b) + Z.min (expo a) (expo b)) with (expo a) by lia.
  - rewrite shift_val by lia. now replace (expo b - Z.min (expo a) (expo b) + Z.min (expo a) (expo b)) with (expo b) by lia.
Qed.

Lemma dec_add_val (a b : dec) : (dval (dec_add a b) == dval a + dval b)%Q.
Proof.
  unfold dec_add. pose proof (align_val a b) as H.
  destruct (align a b) as [[ma mb] e]. destruct H as [Ha Hb].
  rewrite norm_val, inject_Z_plus, <- Ha, <- Hb. ring.
Qed.

Lemma dec_neg_val (a : dec) : (dval (dec_neg a) == - dval a)%Q.
Proof. unfold dec_neg, dval. cbn [mant expo]. rewrite inject_Z_opp. ring. Qed.

Lemma dec_mul_val (a b : dec) : (dval (dec_mul a b) == dval a * dval b)%Q.
Proof.
  unfold dec_mul. rewrite norm_val, inject_Z_mult.
  rewrite Qpower_plus by apply ten_nonzero. unfold dval. ring.
Qed.


Lemma of_Z_val (z : Z) : exists d, of_Z z = Fin d /\ (dval d == inject_Z z)%Q.
Proof.
  eexists. split; [reflexivity|]. rewrite norm_val. change (10 ^ 0)%Q with 1%Q. ring.
Qed.

Lemma half_val (a : dec) :
  exists d, half (Fin a) = Fin d /\ (dval d == dval a / 2)%Q.
Proof.
  eexists. split; [reflexivity|]. rewrite dec_mul_val.
  unfold dval at 2. cbn [mant expo]. change (10 ^ (-1))%Q with (/ 10)%Q.
  change (inject_Z 5) with 5%Q. field.
Qed.

Lemma has_value_eq (x : num) (a b : Q) : has_value x a -> (a == b)%Q -> has_value x b.
Proof. intros (d & -> & H) E. exists d. split; [reflexivity|]. now rewrite H. Qed.


Lemma has_value_of_Z (z : Z) : has_value (of_Z z) (inject_Z z).
Proof. apply of_Z_val. Qed.

Lemma has_value_add x y a b :
  has_value x a -> has_value y b -> has_value (add x y) (a + b).
Proof.
  intros (d & -> & H) (d' & -> & H'). eexists. split; [reflexivity|].
  now rewrite dec_add_val, H, H'.
Qed.

Lemma has_value_neg x a : has_value x a -> has_value (neg x) (- a).
Proof.
  intros (d & -> & H). eexists. split; [reflexivity|]. now rewrite dec_neg_val, H.
Qed.

Lemma has_value_sub x y a b :
  has_value x a -> has_value y b -> has_value (sub x y) (a - b).
Proof. intros Hx Hy. unfold sub. apply has_value_add; [exact Hx|now apply has_value_neg]. Qed.

Lemma has_value_mul x y a b :
  has_value x a -> has_value y b -> has_value (mul x y) (a * b).
Proof.
  intros (d & -> & H) (d' & -> & H'). eexists. split; [reflexivity|].
  now rewrite dec_mul_val, H, H'.
Qed.

Lemma has_value_half x a : has_value x a -> has_value (half x) (a / 2).
Proof.
  intros (d & -> & H). destruct (half_val d) as (d' & E & H'). exists d'.
  split; [exact E|]. now rewrite H', H.
Qed.











(** ** Group centring *)



(** X2: when no cached hull has a vertex (no shapes, or empty hulls
    only) the bounds stay at [Infinity] and [-Infinity] and both
    offsets are [NaN]. *)
Theorem calcCenterOffsets_no_vertices (i : Instance) :
  concat (map sh_hull (shapeCache i)) = [] ->
  calcCenterOffsets i = (NaN, NaN).
Proof.
  intros H. unfold calcCenterOffsets. rewrite H. cbn [fold_left].
  unfold p_width, p_height, of_Z. destruct (canvas (p5 i)) as [[w h]|]; reflexivity.
Qed.

(** ** Wall geometry *)

Ltac value_of :=
  repeat first
    [ apply has_value_sub | apply has_value_add | apply has_value_neg
    | apply has_value_half | apply has_value_mul | apply has_value_of_Z
    | eassumption ].

Lemma rectangle_box (x y w h : num) (qx qy qw qh : Q) (static : bool) :
  has_value x qx -> has_value y qy -> has_value w qw -> has_value h qh ->
  box (rectangle x y w h static)
    (qx - qw / 2) (qy - qh / 2) (qx + qw / 2) (qy + qh / 2).
Proof.
  intros Hx Hy Hw Hh. unfold box, rectangle. cbn [vertices].
  eexists _, _, _, _. split; [reflexivity|].
  unfold point_at. cbn [px py]. repeat split; value_of.
Qed.

Lemma box_eq (b : MBody) (x0 y0 x1 y1 x0' y0' x1' y1' : Q) :
  box b x0 y0 x1 y1 ->
  (x0 == x0')%Q -> (y0 == y0')%Q -> (x1 == x1')%Q -> (y1 == y1')%Q ->
  box b x0' y0' x1' y1'.
Proof.
  intros (v1 & v2 & v3 & v4 & E & [H1x H1y] & [H2x H2y] & [H3x H3y] & [H4x H4y]) Ex0 Ey0 Ex1 Ey1.
  exists v1, v2, v3, v4. split; [exact E|]. unfold point_at.
  repeat split; eapply has_value_eq; eauto.
Qed.

(** X3: the walls [#createWalls] builds frame the canvas: the floor is
    100 thick and its top edge is the bottom edge of the canvas, over
    the whole width; the side walls are 100 thick, stand against the
    left and right edge of the canvas and are twice the canvas high,
    centred on it; all three are static. *)
Theorem wallsFor_frame_canvas (w h : Z) :
  exists floor left right,
    wallsFor (of_Z w) (of_Z h) = [floor; left; right] /\
    isStatic floor = true /\ isStatic left = true /\ isStatic right = true /\
    box floor 0 (inject_Z h) (inject_Z w) (inject_Z h + 100) /\
    box left (-100) (- inject_Z h / 2) 0 (3 * inject_Z h / 2) /\
    box right (inject_Z w) (- inject_Z h / 2) (inject_Z w + 100) (3 * inject_Z h / 2).
Proof.
  eexists _, _, _. split; [reflexivity|].
  split; [reflexivity|]. split; [reflexivity|]. split; [reflexivity|].
  split; [|split].
  - eapply box_eq; [apply rectangle_box; value_of| | | |];
      change (inject_Z 50) with 50%Q; change (inject_Z 100) with 100%Q; field.
  - eapply box_eq; [apply rectangle_box; value_of| | | |];
      change (inject_Z (-50)) with (-50)%Q; change (inject_Z 100) with 100%Q;
      change (inject_Z 2) with 2%Q; field.
  - eapply box_eq; [apply rectangle_box; value_of| | | |];
      change (inject_Z 50) with 50%Q; change (inject_Z 100) with 100%Q;
      change (inject_Z 2) with 2%Q; field.
Qed.

Lemma rectangle_position (x y w h : num) (qx qy : Q) (static : bool) :
  has_value x qx -> has_value y qy ->
  point_at (position (rectangle x y w h static)) qx qy.
Proof. intros Hx Hy. split; assumption. Qed.

(** [Body.setPosition] shifts the box of a body by the way its centre
    goes. *)
Lemma setPosition_box (b : MBody) (pos : point) (x0 y0 x1 y1 cx cy nx ny : Q) :
  box b x0 y0 x1 y1 -> point_at (position b) cx cy -> point_at pos nx ny ->
  box (setPosition b pos)
    (x0 + (nx - cx)) (y0 + (ny - cy)) (x1 + (nx - cx)) (y1 + (ny - cy)).
Proof.
  intros (v1 & v2 & v3 & v4 & E & [H1x H1y] & [H2x H2y] & [H3x H3y] & [H4x H4y])
         [Hcx Hcy] [Hnx Hny].
  unfold box, setPosition. cbn [vertices]. rewrite E. cbn [map].
  eexists _, _, _, _. split; [reflexivity|].
  unfold point_at. cbn [px py]. repeat split; value_of.
Qed.

Lemma handleResize_heap (st : State) (a0 a1 a2 : nat) :
  walls (self st) = [a0; a1; a2] ->
  let el := elementAt (doc (page st)) (container (self st)) in
  let w := of_Z (clientWidth el) in
  let h := of_Z (clientHeight el) in
  heap (page (fst (handleResize st))) =
    alter (fun b => setPosition b (Pt (add w (of_Z 50)) (half h))) a2
      (alter (fun b => setPosition b (Pt (half w) (add h (of_Z 50)))) a0
         (heap (page st))).
Proof.
  intros Hw. cbn zeta. unfold handleResize, moveWall.
  cbn [self set_p5 walls set_page page]. rewrite Hw. cbn [lookup list_lookup].
  cbn [self set_p5 walls set_page page]. rewrite Hw. cbn [lookup list_lookup].
  reflexivity.
Qed.

(** X4: [#handleResize] moves walls, it does not resize them.  With the
    walls as [#createWalls] built them for a canvas of [w] by [h], after
    a resize to [w'] by [h'] the floor's top edge is the new bottom edge
    [y = h'], but the floor is still [w] wide, centred at [w' / 2]; the
    right wall stands against the new right edge [x = w'], but is still
    [2 h] high, centred at [h' / 2]. *)
Theorem handleResize_keeps_wall_sizes (st : State) (a0 a1 a2 : nat) (w h : Z)
    (floor left right : MBody) :
  walls (self st) = [a0; a1; a2] ->
  a0 <> a2 ->
  wallsFor (of_Z w) (of_Z h) = [floor; left; right] ->
  heap (page st) !! a0 = Some floor ->
  heap (page st) !! a2 = Some right ->
  let el := elementAt (doc (page st)) (container (self st)) in
  let w' := inject_Z (clientWidth el) in
  let h' := inject_Z (clientHeight el) in
  let st' := fst (handleResize st) in
  exists floor' right',
    heap (page st') !! a0 = Some floor' /\
    heap (page st') !! a2 = Some right' /\
    box floor' (w' / 2 - inject_Z w / 2) h' (w' / 2 + inject_Z w / 2) (h' + 100) /\
    box right' w' (h' / 2 - inject_Z h) (w' + 100) (h' / 2 + inject_Z h).
Proof.
  intros Hw H02 Hwalls H0 H2. cbn zeta.
  rewrite (handleResize_heap st a0 a1 a2 Hw). cbn zeta.
  assert (Ef : floor = rectangle (half (of_Z w)) (add (of_Z h) (of_Z 50))
                         (of_Z w) (of_Z 100) true)
    by (unfold wallsFor in Hwalls; congruence).
  assert (Er : right = rectangle (add (of_Z w) (of_Z 50)) (half (of_Z h))
                         (of_Z 100) (mul (of_Z h) (of_Z 2)) true)
    by (unfold wallsFor in Hwalls; congruence).
  subst floor right. clear Hwalls.
  eexists _, _.
  split; [rewrite list_lookup_alter_ne by congruence;
          rewrite list_lookup_alter_eq, H0; reflexivity|].
  split; [rewrite list_lookup_alter_eq, list_lookup_alter_ne by congruence;
          rewrite H2; reflexivity|].
  split.
  - eapply box_eq.
    + eapply setPosition_box.
      * apply rectangle_box; value_of.
      * apply rectangle_position; value_of.
      * split; cbn [px py]; value_of.
    + change (inject_Z 50) with 50%Q; change (inject_Z 100) with 100%Q; field.
    + change (inject_Z 50) with 50%Q; change (inject_Z 100) with 100%Q; field.
    + change (inject_Z 50) with 50%Q; change (inject_Z 100) with 100%Q; field.
    + change (inject_Z 50) with 50%Q; change (inject_Z 100) with 100%Q; field.
  - eapply box_eq.
    + eapply setPosition_box.
      * apply rectangle_box; value_of.
      * apply rectangle_position; value_of.
      * split; cbn [px py]; value_of.
    + change (inject_Z 50) with 50%Q; change (inject_Z 100) with 100%Q;
        change (inject_Z 2) with 2%Q; field.
    + change (inject_Z 50) with 50%Q; change (inject_Z 100) with 100%Q;
        change (inject_Z 2) with 2%Q; field.
    + change (inject_Z 50) with 50%Q; change (inject_Z 100) with 100%Q;
        change (inject_Z 2) with 2%Q; field.
    + change (inject_Z 50) with 50%Q; change (inject_Z 100) with 100%Q;
        change (inject_Z 2) with 2%Q; field.
Qed.

(** ** The further properties at concrete inputs *)



(** The booted demo instance (walls for 800 by 600 at the addresses 2, 3
    and 4) in a container grown to 800 by 1000. *)
Lemma handleResize_keeps_wall_sizes_witness :
  exists st floor' right',
    option_map (Demo.runs [Deliver (EvLayout 800 1000)]) Demo.booted = Some st /\
    walls (self st) = [2; 3; 4]%nat /\
    heap (page (fst (handleResize st))) !! 2%nat = Some floor' /\
    heap (page (fst (handleResize st))) !! 4%nat = Some right' /\
    box floor' (800 / 2 - 800 / 2) 1000 (800 / 2 + 800 / 2) (1000 + 100) /\
    box right' 800 (1000 / 2 - 600) (800 + 100) (1000 / 2 + 600).
Proof.
  eexists.
  edestruct (handleResize_keeps_wall_sizes) as (floor' & right' & H0 & H2 & Hf & Hr).
  6: { exists floor', right'. split; [reflexivity|]. split; [reflexivity|].
       split; [exact H0|]. split; [exact H2|]. split; [exact Hf|exact Hr]. }
  - reflexivity.
  - discriminate.
  - reflexivity.
  - reflexivity.
  - reflexivity.
Defined.

(** ** The generic [deepMerge] *)
Module DeepMergeProps.

Import JSValue.

Lemma get_defined (v : jsval) (k : string) :
  defined v -> exists x, get v k = Ok x.
Proof.
  intros [Hn Hu]. destruct v; try contradiction; cbn [get];
    try (eexists; reflexivity);
    destruct (String.eqb k "length"); eexists; reflexivity.
Qed.

Lemma or_empty_defined (x : jsval) : defined (or_empty x).
Proof.
  unfold or_empty. destruct (truthy x) eqn:E; [|split; discriminate].
  destruct x; try discriminate E; split; discriminate.
Qed.

Lemma deepMerge_defined_ok (source : jsval) :
  forall target, defined target -> exists r, deepMerge target source = Ok r.
Proof.
  induction source as [| | | | |l IH|props IH] using jsval_nested_ind;
    intros target Hd; try (eexists; reflexivity).
  - cbn [deepMerge].
    assert (H : forall i out, exists out',
               eachItem deepMerge target i l out = Ok out').
    { induction IH as [|v l Hv _ IHl]; intros i out; [eexists; reflexivity|].
      cbn [eachItem].
      assert (Hp : exists o, mergeProp deepMerge target (index_key i) v out = Ok o).
      { unfold mergeProp. destruct v; try (eexists; reflexivity).
        destruct (get_defined target (index_key i) Hd) as [tk ->].
        destruct (Hv (or_empty tk) (or_empty_defined tk)) as [r ->].
        eexists; reflexivity. }
      destruct Hp as [o ->]. apply IHl. }
    destruct (H 0%nat (own_fields target)) as [out' ->]. eexists; reflexivity.
  - cbn [deepMerge].
    assert (H : forall out, exists out',
               eachProp deepMerge target props out = Ok out').
    { induction IH as [|[key v] props Hv _ IHl]; intros out; [eexists; reflexivity|].
      cbn [eachProp]. cbn [snd] in Hv.
      assert (Hp : exists o, mergeProp deepMerge target key v out = Ok o).
      { unfold mergeProp. destruct v; try (eexists; reflexivity).
        destruct (get_defined target key Hd) as [tk ->].
        destruct (Hv (or_empty tk) (or_empty_defined tk)) as [r ->].
        eexists; reflexivity. }
      destruct Hp as [o ->]. apply IHl. }
    destruct (H (own_fields target)) as [out' ->]. eexists; reflexivity.
Qed.

Lemma eachProp_nullish_throws (target : jsval) (props : list (string * jsval)) :
  target = JNull \/ target = JUndefined ->
  (exists k fs, (k, JObj fs) ∈ props) ->
  forall out, exists msg,
    eachProp deepMerge target props out = Throw (TypeError msg).
Proof.
  intros Hnull (k & fs & Hin). induction props as [|[key v] props IH]; intros out.
  - now apply elem_of_nil in Hin.
  - cbn [eachProp].
    destruct (mergeProp deepMerge target key v out) as [o|e] eqn:E.
    + apply elem_of_cons in Hin as [Heq|Hin].
      * inversion Heq; subst key v. unfold mergeProp in E.
        destruct Hnull as [-> | ->]; discriminate E.
      * now apply IH.
    + unfold mergeProp in E. destruct v; try discriminate E.
      destruct Hnull as [-> | ->]; cbn [get] in E; inversion E; eexists; reflexivity.
Qed.

(** X5: [deepMerge] throws only for a target that is [null] or
    [undefined]: on any other target it returns a value, whatever the
    source; on [null] or [undefined] with a source object that holds a
    plain object under some key, reading [target[key]] raises a
    [TypeError]. *)
Theorem deepMerge_throws_only_on_nullish_target :
  (forall target source,
     defined target -> exists r, deepMerge target source = Ok r) /\
  (forall target props,
     target = JNull \/ target = JUndefined ->
     (exists k fs, (k, JObj fs) ∈ props) ->
     exists msg, deepMerge target (JObj props) = Throw (TypeError msg)).
Proof.
  split.
  - intros target source Hd. now apply deepMerge_defined_ok.
  - intros target props Hnull Hobj. cbn [deepMerge].
    destruct (eachProp_nullish_throws target props Hnull Hobj (own_fields target))
      as [msg ->].
    eexists; reflexivity.
Qed.

Lemma lookup_set_field_eq (k : string) (v : jsval) (fs : list (string * jsval)) :
  lookup_field k (set_field k v fs) = Some v.
Proof.
  induction fs as [|[k' v'] fs IH]; cbn [set_field lookup_field].
  - now rewrite String.eqb_refl.
  - destruct (String.eqb k k') eqn:E; cbn [lookup_field].
    + now rewrite String.eqb_refl.
    + now rewrite E.
Qed.

Lemma lookup_set_field_ne (k k' : string) (v : jsval) (fs : list (string * jsval)) :
  k <> k' -> lookup_field k (set_field k' v fs) = lookup_field k fs.
Proof.
  intros Hne. induction fs as [|[k'' v''] fs IH]; cbn [set_field lookup_field].
  - apply String.eqb_neq in Hne. now rewrite Hne.
  - destruct (String.eqb k' k'') eqn:E; cbn [lookup_field].
    + apply String.eqb_eq in E. subst k''.
      apply String.eqb_neq in Hne. now rewrite Hne.
    + now rewrite IH.
Qed.

Lemma lookup_field_None (k : string) (fs : list (string * jsval)) :
  k ∉ map fst fs -> lookup_field k fs = None.
Proof.
  induction fs as [|[k' v'] fs IH]; intros Hk; [reflexivity|].
  cbn [lookup_field]. destruct (String.eqb_spec k k') as [->|Hne].
  - exfalso. apply Hk. apply list_elem_of_here.
  - apply IH. intros Hin. apply Hk. now apply list_elem_of_further.
Qed.

Lemma mergeProp_sets (target : jsval) (key : string) (v : jsval)
    (out o : list (string * jsval)) :
  mergeProp deepMerge target key v out = Ok o ->
  exists x, o = set_field key x out /\
    (plain_object v = false -> x = v) /\
    (forall fs, v = JObj fs ->
       exists tk, get target key = Ok tk /\
                  deepMerge (or_empty tk) (JObj fs) = Ok x).
Proof.
  unfold mergeProp. intros H.
  destruct v; try (inversion H; subst; eexists; split; [reflexivity|];
                   split; [reflexivity|discriminate]).
  destruct (get target key) as [tk|e]; [|discriminate].
  destruct (deepMerge (or_empty tk) (JObj fields)) as [m|e] eqn:E; [|discriminate].
  inversion H; subst. exists m. split; [reflexivity|]. split; [discriminate|].
  intros fs Hfs. inversion Hfs; subst. exists tk. split; [reflexivity|exact E].
Qed.

Lemma eachProp_lookup (target : jsval) (props : list (string * jsval)) :
  NoDup (map fst props) ->
  forall out out',
    eachProp deepMerge target props out = Ok out' ->
    forall k,
      (lookup_field k props = None -> lookup_field k out' = lookup_field k out) /\
      (forall v, lookup_field k props = Some v -> plain_object v = false ->
         lookup_field k out' = Some v) /\
      (forall fs, lookup_field k props = Some (JObj fs) ->
         exists tk m, get target k = Ok tk /\
                      deepMerge (or_empty tk) (JObj fs) = Ok m /\
                      lookup_field k out' = Some m).
Proof.
  induction props as [|[key v] props IH]; intros Hnd out out' H k.
  - cbn [eachProp] in H. inversion H; subst.
    split; [reflexivity|]. split; [discriminate|discriminate].
  - cbn [eachProp] in H. cbn [map fst] in Hnd. apply NoDup_cons in Hnd as [Hfresh Hnd].
    destruct (mergeProp deepMerge target key v out) as [o|e] eqn:E; [|discriminate].
    apply mergeProp_sets in E as (x & -> & Hprim & Hobj).
    destruct (IH Hnd _ _ H k) as (Hnone & Hval & Hmerged).
    cbn [lookup_field]. destruct (String.eqb_spec k key) as [->|Hne].
    + pose proof (lookup_field_None key props Hfresh) as Hrest.
      specialize (Hnone Hrest). rewrite lookup_set_field_eq in Hnone.
      split; [discriminate|]. split.
      * intros v0 Hv0 Hp. inversion Hv0; subst v0. now rewrite Hnone, (Hprim Hp).
      * intros fs Hfs. inversion Hfs; subst v.
        destruct (Hobj fs eq_refl) as (tk & Hget & Hm).
        exists tk, x. auto.
    + rewrite (lookup_set_field_ne k key x out Hne) in Hnone.
      split; [exact Hnone|]. split; [exact Hval|exact Hmerged].
Qed.

(** X6: the result of merging an object source into a target, key by
    key: a key the source does not have keeps the target's property;
    a key whose source value is no plain object (a number, a string, a
    boolean, [null], an array) takes the source value as it is; a key
    whose source value is a plain object holds the merge of that object
    into [target[key] || {}]. *)
Theorem deepMerge_by_key (target : jsval) (props : list (string * jsval))
    (r : jsval) :
  NoDup (map fst props) ->
  deepMerge target (JObj props) = Ok r ->
  exists out,
    r = JObj out /\
    forall k,
      (lookup_field k props = None ->
         lookup_field k out = lookup_field k (own_fields target)) /\
      (forall v, lookup_field k props = Some v -> plain_object v = false ->
         lookup_field k out = Some v) /\
      (forall fs, lookup_field k props = Some (JObj fs) ->
         exists tk m, get target k = Ok tk /\
                      deepMerge (or_empty tk) (JObj fs) = Ok m /\
                      lookup_field k out = Some m).
Proof.
  intros Hnd H. cbn [deepMerge] in H.
  destruct (eachProp deepMerge target props (own_fields target)) as [out|e] eqn:E;
    [|discriminate].
  inversion H; subst. exists out. split; [reflexivity|].
  intros k. now apply (eachProp_lookup target props Hnd _ _ E).
Qed.

End DeepMergeProps.

(** ** The class's configuration merge against the generic one *)

Lemma debug_merge (d : DebugCfg) (o : DebugOv) :
  JSValue.deepMerge (debugJ d) (debugOvJ o) =
  Ok (debugJ {| devMode := default (devMode d) (ov_devMode o);
                showBoundingBoxes :=
                  default (showBoundingBoxes d) (ov_showBoundingBoxes o) |}).
Proof. destruct o as [[?|] [?|]]; reflexivity. Qed.

Lemma outline_merge (d : OutlineCfg) (o : OutlineOv) :
  JSValue.deepMerge (outlineJ d) (outlineOvJ o) =
  Ok (outlineJ {| stroke := default (stroke d) (ov_stroke o);
                  strokeWidth := default (strokeWidth d) (ov_strokeWidth o) |}).
Proof. destruct o as [[?|] [?|]]; reflexivity. Qed.

Lemma physics_merge (t : PhysicsCfg) (o : PhysicsOv) :
  JSValue.deepMerge (physicsJ t) (physicsOvJ o) =
  Ok (physicsJ {|
        restitution := default (restitution t) (ov_restitution o);
        friction := default (friction t) (ov_friction o);
        vertexLimit := default (vertexLimit t) (ov_vertexLimit o);
        simplifyTolerance := default (simplifyTolerance t) (ov_simplifyTolerance o);
        minimumArea := default (minimumArea t) (ov_minimumArea o);
        positionIterations := default (positionIterations t) (ov_positionIterations o);
        velocityIterations := default (velocityIterations t) (ov_velocityIterations o) |}).
Proof. destruct o as [[?|] [?|] [?|] [?|] [?|] [?|] [?|]]; reflexivity. Qed.

Lemma deepMerge_obj (t : JSValue.jsval) (props : list (string * JSValue.jsval)) :
  JSValue.deepMerge t (JSValue.JObj props) =
  match JSValue.eachProp JSValue.deepMerge t props (JSValue.own_fields t) with
  | Ok output => Ok (JSValue.JObj output)
  | Throw e => Throw e
  end.
Proof. reflexivity. Qed.

Lemma each_plain_value (t : JSValue.jsval) (k : string) (v : JSValue.jsval)
    (rest out : list (string * JSValue.jsval)) :
  JSValue.plain_object v = false ->
  JSValue.eachProp JSValue.deepMerge t ((k, v) :: rest) out =
  JSValue.eachProp JSValue.deepMerge t rest (JSValue.set_field k v out).
Proof. intros H. cbn [JSValue.eachProp]. destruct v; try reflexivity. discriminate H. Qed.

Lemma each_section (t : JSValue.jsval) (k : string) (tv sv merged : JSValue.jsval)
    (rest out : list (string * JSValue.jsval)) :
  JSValue.get t k = Ok tv ->
  JSValue.truthy tv = true ->
  JSValue.plain_object sv = true ->
  JSValue.deepMerge tv sv = Ok merged ->
  JSValue.eachProp JSValue.deepMerge t ((k, sv) :: rest) out =
  JSValue.eachProp JSValue.deepMerge t rest (JSValue.set_field k merged out).
Proof.
  intros Hget Htrue Hplain Hmerge. cbn [JSValue.eachProp].
  unfold JSValue.mergeProp. destruct sv; try discriminate Hplain.
  rewrite Hget. unfold JSValue.or_empty. rewrite Htrue, Hmerge. reflexivity.
Qed.

Lemma mouse_merge (s : num) (o : option num) :
  JSValue.deepMerge (JSValue.JObj [("stiffness", JSValue.JNum s)])
    (JSValue.JObj (opt_field "stiffness" (option_map JSValue.JNum o))) =
  Ok (JSValue.JObj [("stiffness", JSValue.JNum (default s o))]).
Proof. destruct o; reflexivity. Qed.

(** X7: on configurations the generic [deepMerge] of [utils.js] and the
    record merge the class model uses agree: merging a caller's
    override object into a configuration object gives the object of
    the merged configuration, with the keys in their old order. *)
Theorem deepMerge_config (c : Config) (o : ConfigOv) :
  JSValue.deepMerge (configJ c) (configOvJ o) = Ok (configJ (deepMerge c o)).
Proof.
  destruct c as [sc d ph ms ol]. destruct o as [os od op om oo].
  unfold configOvJ. cbn [ov_scale ov_debug ov_physics ov_mouseStiffness ov_outline].
  rewrite deepMerge_obj.
  destruct os as [s|]; cbn [option_map opt_field app];
    [rewrite each_plain_value by reflexivity|];
  (destruct od as [od|]; cbn [option_map opt_field app];
    [erewrite each_section;
       [|reflexivity|reflexivity|reflexivity|apply debug_merge]|]);
  (destruct op as [op|]; cbn [option_map opt_field app];
    [erewrite each_section;
       [|reflexivity|reflexivity|reflexivity|apply physics_merge]|]);
  (destruct om as [om|]; cbn [option_map opt_field app];
    [erewrite each_section;
       [|reflexivity|reflexivity|reflexivity|apply mouse_merge]|]);
  (destruct oo as [oo|]; cbn [option_map opt_field app];
    [erewrite each_section;
       [|reflexivity|reflexivity|reflexivity|apply outline_merge]|]);
  try (destruct om); reflexivity.
Qed.

(** ** [debounce] *)
Module DebounceProps.

Import Debounce.

Section DebounceProps.

Context {A : Type}.

Lemma clearTimeout_named (tm : timer A) :
  clearTimeout (Some (tid tm)) [tm] = [].
Proof. cbn. now rewrite Nat.eqb_refl. Qed.

Lemma clearTimeout_nil (id : option nat) : clearTimeout id (@nil (timer A)) = [].
Proof. destruct id; reflexivity. Qed.

Lemma dinv_start (ms : Z) : dinv (A := A) ms [] start.
Proof. split; [now left|]. cbn. constructor. Qed.

Lemma dinv_step (ms : Z) (es : list (devent A)) (e : devent A) (s : dstate A) :
  dinv ms (callArgs es) s -> dinv ms (callArgs (es ++ [e])) (dstep ms s e).
Proof.
  intros (Hpending & Hsub).
  unfold callArgs. rewrite omap_app. fold (callArgs es).
  assert (Hinv : invoked s `sublist_of` callArgs es).
  { etransitivity; [|exact Hsub]. apply sublist_inserts_r. reflexivity. }
  destruct e as [a|id]; cbn [dstep omap list_omap].
  - assert (Hclear : clearTimeout (t s) (timers s) = []).
    { destruct Hpending as [->|(tm & -> & -> & _)];
        [apply clearTimeout_nil|apply clearTimeout_named]. }
    unfold call, dinv. cbn [timers t nextId invoked]. rewrite Hclear. cbn [app map targs].
    split.
    + right. exists {| tid := nextId s; delay := ms; targs := a |}.
      split; [reflexivity|]. split; [reflexivity|]. split; [reflexivity|].
      cbn [targs]. apply last_snoc.
    + now apply sublist_app.
  - rewrite app_nil_r. unfold expire.
    destruct Hpending as [E|(tm & E & Ht & Hd & Hlast)]; rewrite E; cbn [List.find].
    + unfold dinv. rewrite E. split; [now left|]. now rewrite E in Hsub.
    + destruct (Nat.eqb (tid tm) id) eqn:Eid.
      * unfold dinv. cbn [timers t nextId invoked List.filter]. rewrite Eid. cbn [negb].
        split; [now left|]. rewrite E in Hsub. cbn [map] in *. now rewrite app_nil_r.
      * unfold dinv. rewrite E. split; [|now rewrite E in Hsub].
        right. exists tm. auto.
Qed.

Lemma dinv_run (ms : Z) (es : list (devent A)) :
  dinv ms (callArgs es) (drun ms es).
Proof.
  induction es as [|e es IH] using rev_ind; [apply dinv_start|].
  unfold drun. rewrite fold_left_app. cbn [fold_left]. now apply dinv_step.
Qed.

(** X8: however calls of a debounced function and expiries of its
    timers interleave, at most one timer is pending; it is the one [t]
    names, set for the delay [ms] with the arguments of the latest call.
    Right after a call exactly one timer is pending. *)
Theorem debounce_one_timer (ms : Z) (es : list (devent A)) :
  let s := drun ms es in
  (length (timers s) <= 1)%nat /\
  (forall tm, tm ∈ timers s ->
     t s = Some (tid tm) /\ delay tm = ms /\ last (callArgs es) = Some (targs tm)) /\
  (forall a, exists tm,
     timers (drun ms (es ++ [DCall a])) = [tm] /\ targs tm = a /\ delay tm = ms).
Proof.
  cbn zeta. destruct (dinv_run ms es) as ([E|(tm & E & Ht & Hd & Hlast)] & _).
  - rewrite E. split; [cbn; lia|]. split.
    + intros tm Hin. now apply elem_of_nil in Hin.
    + intros a. unfold drun. rewrite fold_left_app. cbn [fold_left dstep call timers].
      fold (drun ms es). rewrite E, clearTimeout_nil. eexists. repeat split.
  - rewrite E. split; [cbn; lia|]. split.
    + intros tm' Hin. apply list_elem_of_singleton in Hin. subst tm'. auto.
    + intros a. unfold drun. rewrite fold_left_app. cbn [fold_left dstep call timers].
      fold (drun ms es). rewrite E, Ht, clearTimeout_named. eexists. repeat split.
Qed.

(** X9: [fn] runs only when a timer expires, with the arguments of the
    latest call before the expiry, and no call is served twice: the
    arguments [fn] has run with are a selection of the arguments of the
    calls, in call order. *)
Theorem debounce_serves_latest_call (ms : Z) (es : list (devent A)) :
  invoked (drun ms es) `sublist_of` callArgs es /\
  (forall a, invoked (drun ms (es ++ [DCall a])) = invoked (drun ms es)) /\
  (forall id,
     invoked (drun ms (es ++ [DExpire id])) = invoked (drun ms es) \/
     exists a, last (callArgs es) = Some a /\
               invoked (drun ms (es ++ [DExpire id])) = invoked (drun ms es) ++ [a] /\
               timers (drun ms (es ++ [DExpire id])) = []).
Proof.
  destruct (dinv_run ms es) as (Hpending & Hsub). split; [|split].
  - etransitivity; [|exact Hsub]. apply sublist_inserts_r. reflexivity.
  - intros a. unfold drun. rewrite fold_left_app. reflexivity.
  - intros id. unfold drun. rewrite fold_left_app. cbn [fold_left dstep].
    fold (drun ms es). unfold expire.
    destruct Hpending as [E|(tm & E & Ht & Hd & Hlast)]; rewrite E; cbn [List.find].
    + now left.
    + destruct (Nat.eqb (tid tm) id) eqn:Eid; [|now left].
      right. exists (targs tm). cbn [invoked timers List.filter]. rewrite Eid.
      repeat split. exact Hlast.
Qed.

End DebounceProps.

End DebounceProps.

(** ** The frame *)
Module CanvasProps.

Import Canvas.

Lemma exec_app (a b : list drawCmd) (c : context) :
  exec (a ++ b) c = exec b (exec a c).
Proof. unfold exec. apply fold_left_app. Qed.

Lemma exec_cons (x : drawCmd) (l : list drawCmd) (c : context) :
  exec (x :: l) c = exec l (exec1 c x).
Proof. reflexivity. Qed.

Lemma exec_lines (vs : list point) : forall c,
  exec (map (fun u => CLineTo (px u) (py u)) vs) c =
  {| current := current c; saved := saved c;
     curPath := curPath c ++
       map (fun u => {| pp_line := true; pp_transform := transform (current c);
                        pp_x := px u; pp_y := py u |}) vs;
     curClosed := curClosed c; painted := painted c |}.
Proof.
  induction vs as [|v vs IH]; intros c.
  - cbn. rewrite app_nil_r. now destruct c.
  - cbn [map]. rewrite exec_cons, IH.
    cbn [exec1 add_point current saved curPath curClosed painted].
    rewrite <- app_assoc. reflexivity.
Qed.

Lemma exec_outline (vs : list point) (c : context) :
  curPath c = [] ->
  exec (outlineCmds vs) c =
  {| current := current c; saved := saved c;
     curPath := outlinePoints (transform (current c)) vs;
     curClosed := curClosed c; painted := painted c |}.
Proof.
  intros Hp. destruct vs as [|v vs]; cbn [outlineCmds outlinePoints].
  - cbn. rewrite <- Hp. now destruct c.
  - rewrite exec_cons, exec_lines.
    cbn [exec1 add_point current saved curPath curClosed painted].
    rewrite Hp. reflexivity.
Qed.

Lemma exec_drawDebugBounds (body : MBody) (c : context) :
  exec (drawDebugBounds body) c =
  {| current := current c; saved := saved c;
     curPath := outlinePoints (transform (current c)) (vertices body);
     curClosed := true;
     painted := painted c ++
       [ StrokedOutline
           {| transform := transform (current c); fillStyle := fillStyle (current c);
              strokeStyle := "rgba(0,0,255,0.5)"; lineWidth := lineWidth (current c) |}
           (outlinePoints (transform (current c)) (vertices body))
           true ] |}.
Proof.
  unfold drawDebugBounds. rewrite !exec_app.
  rewrite exec_outline by reflexivity. reflexivity.
Qed.

(** One pair: the drawing state and the stack of saved states come back
    as they were, and the canvas gains the fill and the stroke of the
    shape under the body's transform, and the outline if asked for. *)
Lemma exec_drawBody (cfg : Config) (body : MBody) (shape : Shape) (c : context) :
  let c' := exec (drawBody cfg body shape) c in
  current c' = current c /\ saved c' = saved c /\
  painted c' = painted c ++ paintsOf cfg (current c) body shape.
Proof.
  cbn zeta. unfold drawBody, paintsOf. rewrite exec_app.
  destruct (showBoundingBoxes (debug cfg)).
  - rewrite exec_drawDebugBounds. cbn. repeat split.
    rewrite <- !app_assoc. reflexivity.
  - cbn. repeat split. rewrite <- !app_assoc. reflexivity.
Qed.

Lemma exec_pairs (cfg : Config) (pairs : list (MBody * Shape)) : forall c,
  let c' := exec (concat (map (fun bs => drawBody cfg (fst bs) (snd bs)) pairs)) c in
  current c' = current c /\ saved c' = saved c /\
  painted c' =
    painted c ++
    concat (map (fun bs => paintsOf cfg (current c) (fst bs) (snd bs)) pairs).
Proof.
  induction pairs as [|[b sh] pairs IH]; intros c; cbn zeta.
  - cbn. rewrite app_nil_r. repeat split.
  - cbn [map concat fst snd]. rewrite exec_app.
    destruct (exec_drawBody cfg b sh c) as (Hc & Hs & Hp).
    destruct (IH (exec (drawBody cfg b sh) c)) as (Hc' & Hs' & Hp').
    cbn zeta in *. rewrite Hc', Hs', Hp', Hc, Hs, Hp, <- app_assoc.
    repeat split.
Qed.

(** X10: a frame leaves the drawing state of the context and its stack
    of saved states as it found them, whatever they were (every [save]
    is undone by its [restore]), and after it the canvas holds, for each
    pair in the order of [this.bodies], the shape filled with its own
    fill style and stroked with the configured outline under
    translate(body.position), rotate(body.angle), translate(-centroid) on
    top of the frame's transform, followed, when [showBoundingBoxes] is
    set, by the closed outline of the body's vertices in the frame's own
    transform; what was on the canvas before is cleared. *)
Theorem draw_frame (st : State) (c : context) :
  let c' := exec (draw st) c in
  current c' = current c /\
  saved c' = saved c /\
  painted c' =
    concat (map (fun bs => paintsOf (config (self st)) (current c) (fst bs) (snd bs))
              (livePairs st)).
Proof.
  cbn zeta. unfold draw. change (exec (CClear :: ?l) c) with (exec l (exec1 c CClear)).
  destruct (exec_pairs (config (self st)) (livePairs st) (exec1 c CClear))
    as (Hc & Hs & Hp).
  cbn zeta in *. rewrite Hc, Hs, Hp. repeat split.
Qed.

Lemma omap_all_live (h : list MBody) (bs : list (nat * Shape)) :
  (forall a sh, (a, sh) ∈ bs -> (a < length h)%nat) ->
  length (omap (fun bs => match h !! fst bs with
                          | Some b => Some (b, snd bs)
                          | None => None
                          end) bs) = length bs /\
  forall i a sh, bs !! i = Some (a, sh) ->
    exists b, h !! a = Some b /\
      omap (fun bs => match h !! fst bs with
                      | Some b => Some (b, snd bs)
                      | None => None
                      end) bs !! i = Some (b, sh).
Proof.
  induction bs as [|[a0 sh0] bs IH]; intros Hall.
  - split; [reflexivity|]. intros i a sh Hi. discriminate.
  - destruct (lookup_lt_is_Some_2 h a0 (Hall a0 sh0 (list_elem_of_here _ _))) as [b0 Hb0].
    destruct IH as [IHlen IHget].
    { intros a sh Hin. apply (Hall a sh). now apply list_elem_of_further. }
    cbn [omap list_omap fst snd]. rewrite Hb0. split; [cbn; now rewrite IHlen|].
    intros [|i] a sh Hi.
    + inversion Hi; subst. exists b0. split; [exact Hb0|reflexivity].
    + now apply IHget.
Qed.

(** X11: in every state an instance can be in, the frame draws every
    pair of [this.bodies], in order, each with the Matter body its
    reference points to: no pair is skipped and none is drawn with
    another body's transform. *)
Theorem draw_covers_every_pair `{M : MatterLib} (pg : Page) (cs ss : string)
    (custom : ConfigOv) (st : State) :
  reachable pg cs ss custom st ->
  length (livePairs st) = length (bodies (self st)) /\
  forall i a sh, bodies (self st) !! i = Some (a, sh) ->
    exists b, heap (page st) !! a = Some b /\ livePairs st !! i = Some (b, sh).
Proof.
  intros Hr. apply reachable_refs_apart in Hr as (Hb & _ & _).
  unfold livePairs. now apply omap_all_live.
Qed.

End CanvasProps.

(** ** The shape cache *)
Section ShapeCacheProps.

Context {M : MatterLib}.

Lemma cacheShape_shape (vl sc : num) (el : PathEl) (sh : Shape) :
  cacheShape vl sc el = Ok sh -> shape_of_path vl sc el sh.
Proof.
  unfold cacheShape, shape_of_path, scaledEl.
  destruct (attr_d el) as [d|] eqn:E; [|discriminate].
  intros H. inversion H; subst; clear H. exists d. cbn. repeat split.
Qed.

Lemma cacheShapes_shapes (vl sc : num) (els : list PathEl) :
  forall acc cache,
    cacheShapes vl sc els acc = Ok cache ->
    exists new, cache = acc ++ new /\ Forall2 (shape_of_path vl sc) els new.
Proof.
  induction els as [|el els IH]; intros acc cache H; cbn [cacheShapes] in H.
  - inversion H; subst. exists []. rewrite app_nil_r. split; [reflexivity|constructor].
  - destruct (cacheShape vl sc el) as [sh|e] eqn:E; [|discriminate].
    apply IH in H as (new & -> & Hall). exists (sh :: new).
    rewrite <- app_assoc. split; [reflexivity|].
    constructor; [now apply cacheShape_shape|exact Hall].
Qed.

Lemma cacheShapes_missing_d (vl sc : num) (els : list PathEl) :
  Exists (fun el => attr_d el = None) els ->
  forall acc, exists msg, cacheShapes vl sc els acc = Throw (TypeError msg).
Proof.
  induction 1 as [el els Hd|el els _ IH]; intros acc; cbn [cacheShapes].
  - unfold cacheShape. rewrite Hd. eexists; reflexivity.
  - destruct (cacheShape vl sc el) as [sh|e] eqn:E; [apply IH|].
    unfold cacheShape in E. destruct (attr_d el); [discriminate|].
    inversion E. eexists; reflexivity.
Qed.

(** X12: when the SVG element has a path without a [d] attribute,
    [rawD.replace] raises a [TypeError] inside [#initShapeCache] and the
    constructor throws it: no instance comes back and the page is as it
    was, also when other paths were cached before the faulty one. *)
Theorem construct_path_without_d (pg : Page) (containerSel svgSelector : string)
    (custom : ConfigOv) (c svg : nat) :
  querySelector (doc pg) containerSel = Some c ->
  querySelector (doc pg) svgSelector = Some svg ->
  Exists (fun el => attr_d el = None) (paths (elementAt (doc pg) svg)) ->
  exists msg,
    construct pg containerSel svgSelector custom = (pg, Throw (TypeError msg)).
Proof.
  intros Hc Hs Hd. unfold construct, initShapeCache. rewrite Hc, Hs.
  destruct (cacheShapes_missing_d (vertexLimit (physics (deepMerge defaultConfig custom)))
              (scale (deepMerge defaultConfig custom)) _ Hd []) as [msg ->].
  eexists; reflexivity.
Qed.

(** X13: a constructed instance has one cached shape per path of the
    SVG element, in document order (none when the selector resolves to
    nothing); each shape's render path is the path data scaled by the
    configured [scale], its hull is computed from the element with that
    same scaled data, sampled with [physics.vertexLimit], and its
    centroid is the centre of that hull. *)
Theorem construct_shape_cache (pg pg' : Page) (containerSel svgSelector : string)
    (custom : ConfigOv) (i : Instance) :
  construct pg containerSel svgSelector custom = (pg', Ok i) ->
  let cfg := deepMerge defaultConfig custom in
  config i = cfg /\
  match querySelector (doc pg) svgSelector with
  | None => shapeCache i = []
  | Some svg =>
      Forall2 (shape_of_path (vertexLimit (physics cfg)) (scale cfg))
        (paths (elementAt (doc pg) svg)) (shapeCache i)
  end.
Proof.
  unfold construct. destruct (querySelector (doc pg) containerSel); [|discriminate].
  destruct (initShapeCache _ _ _ _ _) as [cache|e] eqn:E; [|discriminate].
  cbn [initMatter]. intros H. inversion H; subst; clear H. cbn [config shapeCache].
  split; [reflexivity|]. unfold initShapeCache in E.
  destruct (querySelector (doc pg) svgSelector) as [svg|].
  - apply cacheShapes_shapes in E as (new & -> & Hall). exact Hall.
  - now inversion E.
Qed.

End ShapeCacheProps.

(** ** Invariants of an instance *)
Section InstanceInvariants.

Context {M : MatterLib}.

Local Open Scope nat_scope.

Lemma keeps_static_refl (h : list MBody) : keeps_static h h.
Proof. intros a b H. eauto. Qed.

Lemma keeps_static_trans (h1 h2 h3 : list MBody) :
  keeps_static h1 h2 -> keeps_static h2 h3 -> keeps_static h1 h3.
Proof.
  intros H12 H23 a b Ha. destruct (H12 a b Ha) as (b' & Hb' & E).
  destruct (H23 a b' Hb') as (b'' & Hb'' & E'). exists b''. split; [exact Hb''|congruence].
Qed.

Lemma keeps_static_app (h extra : list MBody) : keeps_static h (h ++ extra).
Proof. intros a b Ha. exists b. split; [now apply lookup_app_l_Some|reflexivity]. Qed.

Lemma keeps_static_alter (f : MBody -> MBody) (i : nat) (h : list MBody) :
  (forall b, isStatic (f b) = isStatic b) -> keeps_static h (alter f i h).
Proof.
  intros Hf a b Ha. destruct (decide (i = a)) as [->|Hne].
  - exists (f b). rewrite list_lookup_alter_eq, Ha. split; [reflexivity|apply Hf].
  - exists b. rewrite list_lookup_alter_ne by exact Hne. split; [exact Ha|reflexivity].
Qed.

Lemma engineUpdate_keeps_static (upd : MBody -> MBody) (e : Engine) (h : list MBody) :
  forall a b, h !! a = Some b -> isStatic b = true ->
    engineUpdate upd e h !! a = Some b.
Proof.
  unfold engineUpdate. revert h.
  induction (world_bodies e) as [|i l IH]; intros h a b Ha Hs; [exact Ha|].
  cbn [fold_left]. apply IH; [|exact Hs].
  destruct (decide (i = a)) as [->|Hne].
  - rewrite list_lookup_alter_eq, Ha. cbn. now rewrite Hs.
  - now rewrite list_lookup_alter_ne.
Qed.

Lemma handleResize_keeps_static (st : State) :
  keeps_static (heap (page st)) (heap (page (fst (handleResize st)))).
Proof.
  unfold handleResize, moveWall. cbn [self set_p5 walls page].
  destruct (walls (self st) !! 0) as [a0|]; [|apply keeps_static_refl].
  cbn [set_page self walls set_p5 page set_heap heap].
  destruct (walls (self st) !! 2) as [a2|]; cbn [fst page set_page set_heap heap].
  - eapply keeps_static_trans; apply keeps_static_alter; reflexivity.
  - apply keeps_static_alter; reflexivity.
Qed.

Lemma walls_static_same (st st' : State) :
  walls (self st') = walls (self st) ->
  keeps_static (heap (page st)) (heap (page st')) ->
  walls_static st -> walls_static st'.
Proof.
  intros Hw Hk Hs w Hin. rewrite Hw in Hin.
  destruct (Hs w Hin) as (b & Hb & Hstat).
  destruct (Hk w b Hb) as (b' & Hb' & E). exists b'. split; [exact Hb'|congruence].
Qed.

Lemma setup_walls_static (st : State) : walls_static (setup st).
Proof.
  unfold setup, createWalls. intros w Hin.
  cbn [self set_walls walls page set_heap heap] in *.
  set (h := heap (page (createBodies _))) in *.
  repeat (apply elem_of_cons in Hin as [->|Hin]);
    [| | |now apply elem_of_nil in Hin].
  - eexists. split.
    + rewrite (lookup_app_r h) by lia.
      replace (length h - length h)%nat with 0%nat by lia. reflexivity.
    + reflexivity.
  - eexists. split.
    + rewrite (lookup_app_r h) by lia.
      replace (S (length h) - length h)%nat with 1%nat by lia. reflexivity.
    + reflexivity.
  - eexists. split.
    + rewrite (lookup_app_r h) by lia.
      replace (S (S (length h)) - length h)%nat with 2%nat by lia. reflexivity.
    + reflexivity.
Qed.

Lemma run_walls_static (a : action) (st : State) :
  walls_static st -> walls_static (run a st).
Proof.
  intros H. destruct a as [ev| | |];
    try (revert H; apply walls_static_same; [reflexivity|apply keeps_static_refl]).
  destruct ev as [| | | |key|w h|upd]; cbn [run deliver].
  - destruct (_ || _); [exact H|]. cbn [fst].
    pose proof (setup_walls_static st) as Hs.
    revert Hs. apply walls_static_same; [reflexivity|apply keeps_static_refl].
  - destruct (_ || _); exact H.
  - destruct (removed _); [exact H|].
    revert H. apply walls_static_same; [reflexivity|apply keeps_static_refl].
  - destruct (resizeTimer (self st)); [|exact H]. cbn [fst].
    revert H. apply walls_static_same.
    + destruct (handleResize_frame {| page := page st; self := set_timer (self st) false |})
        as (Hs & _). cbn zeta in Hs. now rewrite Hs.
    + apply (handleResize_keeps_static {| page := page st; self := set_timer (self st) false |}).
  - destruct (runListener_refs key (keydown (page st)) (self st) []) as [_ Hw].
    destruct (fold_left (runListener key) (keydown (page st)) (self st, []))
      as [i' log]. cbn [fst snd] in *.
    revert H. apply walls_static_same; [exact Hw|apply keeps_static_refl].
  - revert H. apply walls_static_same; [reflexivity|apply keeps_static_refl].
  - destruct (running _); [|exact H]. cbn [fst].
    intros w0 Hin. destruct (H w0 Hin) as (b & Hb & Hs). exists b.
    split; [|exact Hs]. cbn [set_page page set_heap heap].
    now apply engineUpdate_keeps_static.
Qed.

Lemma reachable_walls_static (pg : Page) (cs ss : string) (custom : ConfigOv)
    (st : State) :
  reachable pg cs ss custom st -> walls_static st.
Proof.
  induction 1 as [pg' i Hc|a st _ IH].
  - apply construct_fields in Hc as (_ & Hw & _).
    intros w Hin. cbn [self] in Hin. rewrite Hw in Hin. now apply elem_of_nil in Hin.
  - now apply run_walls_static.
Qed.

(** X14: in every state an instance can be in, every wall is a static
    body, and a step of the engine leaves every wall exactly as it is:
    walls move only when [#handleResize] moves them. *)
Theorem walls_stay_static (pg : Page) (cs ss : string) (custom : ConfigOv)
    (st : State) :
  reachable pg cs ss custom st ->
  forall w, w ∈ walls (self st) ->
    (exists b, heap (page st) !! w = Some b /\ isStatic b = true) /\
    forall upd,
      heap (page (run (Deliver (EvTick upd)) st)) !! w = heap (page st) !! w.
Proof.
  intros Hr w Hin. destruct (reachable_walls_static _ _ _ _ _ Hr w Hin) as (b & Hb & Hs).
  split; [now exists b|]. intros upd. cbn [run deliver].
  destruct (running (runner (self st))); [|reflexivity].
  cbn [fst set_page page set_heap heap]. rewrite Hb.
  now apply engineUpdate_keeps_static.
Qed.

Lemma same_but_boxes_refl (c : Config) : same_but_boxes c c.
Proof. repeat split. Qed.

Lemma same_but_boxes_trans (c1 c2 c3 : Config) :
  same_but_boxes c1 c2 -> same_but_boxes c2 c3 -> same_but_boxes c1 c3.
Proof.
  intros (H1 & H2 & H3 & H4 & H5) (H1' & H2' & H3' & H4' & H5').
  repeat split; congruence.
Qed.

Lemma onKeydown_config (key : string) (i : Instance) :
  same_but_boxes (config i) (config (onKeydown key i)).
Proof. unfold onKeydown. destruct (String.eqb key "b"); repeat split. Qed.

Lemma runListener_config (key : string) (ls : list listener) :
  forall i log,
    same_but_boxes (config i) (config (fst (fold_left (runListener key) ls (i, log)))) /\
    engine (fst (fold_left (runListener key) ls (i, log))) = engine i.
Proof.
  induction ls as [|l ls IH]; intros i log; [split; [apply same_but_boxes_refl|reflexivity]|].
  cbn [fold_left]. destruct l. unfold runListener at 2 4. cbn [fst snd].
  destruct (IH (onKeydown key i) (log ++ [CbKeydown])) as [Hc ->]. split.
  - eapply same_but_boxes_trans; [apply onKeydown_config|exact Hc].
  - unfold onKeydown. destruct (String.eqb key "b"); reflexivity.
Qed.

Lemma setup_config (st : State) : config (self (setup st)) = config (self st).
Proof.
  unfold setup, createWalls, createBodies. cbn [self set_walls set_engine config].
  rewrite createBody_fold. reflexivity.
Qed.

(** No step changes a configuration key other than
    [debug.showBoundingBoxes]; without a [keydown] listener on the
    window no step changes the configuration at all. *)
Lemma run_config (a : action) (st : State) :
  same_but_boxes (config (self st)) (config (self (run a st))) /\
  (keydown (page st) = [] -> config (self (run a st)) = config (self st)).
Proof.
  destruct a as [ev| | |]; try (split; [apply same_but_boxes_refl|reflexivity]).
  destruct ev as [| | | |key|w h|upd]; cbn [run deliver].
  - destruct (_ || _); [split; [apply same_but_boxes_refl|reflexivity]|].
    cbn [fst self set_p5 config]. rewrite setup_config.
    split; [apply same_but_boxes_refl|reflexivity].
  - destruct (_ || _); split; try apply same_but_boxes_refl; reflexivity.
  - destruct (removed _); split; try apply same_but_boxes_refl; reflexivity.
  - destruct (resizeTimer (self st)); [|split; [apply same_but_boxes_refl|reflexivity]].
    cbn [fst].
    destruct (handleResize_frame {| page := page st; self := set_timer (self st) false |})
      as (Hs & _). cbn zeta in Hs. rewrite Hs.
    split; [apply same_but_boxes_refl|reflexivity].
  - split.
    + destruct (runListener_config key (keydown (page st)) (self st) []) as [Hc _].
      destruct (fold_left (runListener key) (keydown (page st)) (self st, []))
        as [i' log]. exact Hc.
    + intros ->. reflexivity.
  - split; [apply same_but_boxes_refl|reflexivity].
  - destruct (running _); split; try apply same_but_boxes_refl; reflexivity.
Qed.

Lemma construct_config (pg pg' : Page) (cs ss : string) (custom : ConfigOv)
    (i : Instance) :
  construct pg cs ss custom = (pg', Ok i) ->
  config i = deepMerge defaultConfig custom /\
  keydown pg' =
    keydown pg ++
    (if devMode (debug (deepMerge defaultConfig custom))
     then [ToggleBoundingBoxes] else []) /\
  pixelDensity pg' = pixelDensity pg /\
  world_bodies (engine i) = [] /\ world_constraints (engine i) = [].
Proof.
  unfold construct. destruct (querySelector (doc pg) cs); [|discriminate].
  destruct (initShapeCache _ _ _ _ _); [|discriminate].
  cbn [initMatter]. intros H. inversion H; subst; clear H.
  cbn [config engine world_bodies world_constraints]. unfold setupDebugControls.
  destruct (devMode (debug (deepMerge defaultConfig custom)));
    cbn [keydown pixelDensity]; rewrite ?app_nil_r; repeat split.
Qed.

(** X15: the configuration is fixed at construction but for one key:
    in every state an instance can be in, every key other than
    [debug.showBoundingBoxes] has the value [deepMerge(defaultConfig,
    customConfig)] gave it; and when dev mode is off (on a page without
    [keydown] listeners of the class) the whole configuration stays as
    merged. *)
Theorem config_fixed_but_boxes (pg : Page) (cs ss : string) (custom : ConfigOv)
    (st : State) :
  reachable pg cs ss custom st ->
  let cfg := deepMerge defaultConfig custom in
  same_but_boxes cfg (config (self st)) /\
  (keydown pg = [] -> devMode (debug cfg) = false ->
     config (self st) = cfg /\ keydown (page st) = []).
Proof.
  cbn zeta. induction 1 as [pg' i Hc|a st _ [IHs IHk]].
  - apply construct_config in Hc as (Hcfg & Hkd & _). cbn [self page].
    rewrite Hcfg. split; [apply same_but_boxes_refl|].
    intros Hnil Hdev. rewrite Hkd, Hnil, Hdev. split; reflexivity.
  - destruct (run_config a st) as [Hsame Hnone]. split.
    + eapply same_but_boxes_trans; [exact IHs|exact Hsame].
    + intros Hnil Hdev. destruct (IHk Hnil Hdev) as [Hc Hk].
      rewrite run_keeps_keydown. split; [|exact Hk]. now rewrite (Hnone Hk).
Qed.







End InstanceInvariants.

(** ** The page script *)
Module AppProps.
Section AppProps.

Context {M : MatterLib}.

Local Open Scope nat_scope.

Lemma runListener_runner (key : string) (ls : list listener) :
  forall i log,
    runner (fst (fold_left (runListener key) ls (i, log))) = runner i.
Proof.
  induction ls as [|l ls IH]; intros i log; [reflexivity|].
  cbn [fold_left]. destruct l. unfold runListener at 2. cbn [fst snd].
  rewrite IH. unfold onKeydown.
  destruct (String.eqb key "b"); reflexivity.
Qed.

Lemma setup_runner (st : State) : runner (self (setup st)) = runner (self st).
Proof.
  unfold setup, createWalls, createBodies. cbn [self set_walls set_engine runner].
  rewrite createBody_fold. reflexivity.
Qed.

(** No event and no [destroy()] starts or stops the runner. *)
Lemma deliver_runner (ev : event) (st : State) :
  runner (self (fst (deliver ev st))) = runner (self st).
Proof.
  destruct ev as [| | | |key|w h|upd]; cbn [deliver].
  - destruct (_ || _); [reflexivity|].
    cbn [fst self set_p5 runner]. apply setup_runner.
  - destruct (_ || _); reflexivity.
  - destruct (removed _); reflexivity.
  - destruct (resizeTimer (self st)); [|reflexivity]. cbn [fst].
    destruct (handleResize_frame {| page := page st; self := set_timer (self st) false |})
      as (Hs & _). cbn zeta in Hs. rewrite Hs. reflexivity.
  - pose proof (runListener_runner key (keydown (page st)) (self st) []) as H.
    destruct (fold_left (runListener key) (keydown (page st)) (self st, []))
      as [i' log]. exact H.
  - reflexivity.
  - destruct (running _); reflexivity.
Qed.

Lemma messages_S (n : nat) :
  App.messages (S n) =
  App.messages n ++ [if Nat.even n then "Physics paused" else "Physics resumed"]%string.
Proof. unfold App.messages. now rewrite seq_S, map_app. Qed.

Lemma presses_snoc (evs : list App.appEvent) (e : App.appEvent) :
  App.presses (evs ++ [e]) =
  App.presses evs +
  match e with
  | App.Browser (EvKeydown key) => if String.eqb key "p" then 1 else 0
  | _ => 0
  end.
Proof.
  unfold App.presses. rewrite List.filter_app, length_app. f_equal.
  destruct e as [[| | | |key| |]|]; cbn; try reflexivity.
  destruct (String.eqb key "p"); reflexivity.
Qed.

(** X17: the flag of the page script never loses track of the runner.
    Whatever events reach the page after the script has built the
    instance (frames, resizes, timers, engine App.steps, keys, the unload),
    [isPaused] is true exactly when the runner is stopped, which is
    exactly when [p] went down an odd number of times; and the App.console
    holds one message per press, "Physics paused" and "Physics resumed"
    in turn. *)
Theorem app_flag_tracks_runner (pg : Page) (scale0 : num) (a0 : App.app)
    (evs : list App.appEvent) :
  App.onLoad pg scale0 = Ok a0 ->
  let a := App.steps evs a0 in
  App.isPaused a = Nat.odd (App.presses evs) /\
  running (runner (self (App.physics_ a))) = negb (App.isPaused a) /\
  App.console a = App.messages (App.presses evs).
Proof.
  intros Hload. cbn zeta. induction evs as [|e evs IH] using rev_ind.
  - unfold App.onLoad in Hload.
    destruct (construct pg "#container" "svg" (App.customConfig scale0))
      as [pg' [i|err]] eqn:Ec; [|discriminate].
    inversion Hload; subst; clear Hload. cbn.
    unfold construct in Ec. destruct (querySelector (doc pg) _); [|discriminate].
    destruct (initShapeCache _ _ _ _ _); [|discriminate].
    cbn [initMatter] in Ec. inversion Ec; subst. repeat split.
  - unfold App.steps in *. rewrite fold_left_app. cbn [fold_left].
    set (a := fold_left App.step evs a0) in *.
    destruct IH as (IHp & IHr & IHc). rewrite presses_snoc.
    destruct e as [ev|].
    + assert (Hother :
        let a' := {| App.physics_ := fst (deliver ev (App.physics_ a));
                     App.isPaused := App.isPaused a; App.console := App.console a |} in
        App.isPaused a' = Nat.odd (App.presses evs) /\
        running (runner (self (App.physics_ a'))) = negb (App.isPaused a') /\
        App.console a' = App.messages (App.presses evs)).
      { cbn [App.physics_ App.isPaused App.console]. now rewrite deliver_runner. }
      cbn zeta in Hother.
      destruct ev as [| | | |key|w h|upd];
        try (rewrite Nat.add_0_r; exact Hother).
      cbn [App.step]. unfold App.onKeydown.
      destruct (String.eqb key "p"); [|rewrite Nat.add_0_r; exact Hother].
      destruct Hother as (Hp & _ & Hc). cbn [App.isPaused App.console] in Hp, Hc.
      rewrite Nat.add_1_r, messages_S, Nat.odd_succ, <- Nat.negb_odd, <- Hp.
      destruct (App.isPaused a); cbn [negb App.isPaused App.physics_ App.console pause resume
        fst self set_runner runner running]; rewrite Hc; repeat split.
    + rewrite Nat.add_0_r. cbn [App.step App.onBeforeunload App.physics_ App.isPaused App.console].
      repeat split; assumption.
Qed.

End AppProps.
End AppProps.

(** ** More on path-string scaling *)

Lemma has_digit_app (a b : string) :
  has_digit (a +:+ b) = has_digit a || has_digit b.
Proof.
  induction a as [|c a IH]; [reflexivity|].
  simpl. now rewrite IH, orb_assoc.
Qed.

Lemma matches_star_has_digit (p : ascii -> bool) (r : regex) :
  (forall m, matches r m -> has_digit m = true) ->
  forall m, matches (Star p :: r) m -> has_digit m = true.
Proof.
  intros Hr m H. remember (Star p :: r) as R eqn:ER.
  induction H; inversion ER; subst; auto.
  cbn [has_digit]. rewrite IHmatches by reflexivity. apply orb_true_r.
Qed.

Lemma matches_opt_has_digit (p : ascii -> bool) (r : regex) :
  (forall m, matches r m -> has_digit m = true) ->
  forall m, matches (Opt p :: r) m -> has_digit m = true.
Proof.
  intros Hr m H. inversion H; subst; auto.
  cbn [has_digit]. rewrite Hr by assumption. apply orb_true_r.
Qed.

Lemma matches_plus_digit_has_digit (r : regex) (m : string) :
  matches (Plus is_digit :: r) m -> has_digit m = true.
Proof.
  intros H. inversion H; subst. cbn [has_digit].
  match goal with Hd : is_digit _ = true |- _ => now rewrite Hd end.
Qed.

(** A match of the number pattern holds a digit. *)
Lemma matches_numberRe_has_digit (m : string) :
  matches numberRe m -> has_digit m = true.
Proof.
  unfold numberRe.
  apply matches_opt_has_digit, matches_star_has_digit, matches_opt_has_digit.
  apply matches_plus_digit_has_digit.
Qed.

Lemma exec_numberRe_has_digit (s m rest : string) :
  exec numberRe s = Some (m, rest) -> has_digit s = true.
Proof.
  intros H. apply exec_sound in H as [Hm ->].
  rewrite has_digit_app, (matches_numberRe_has_digit m Hm). reflexivity.
Qed.

Lemma replaceAll_no_digit (f : string -> string) (fuel : nat) :
  forall s, has_digit s = false -> replaceAll fuel numberRe f s = s.
Proof.
  induction fuel as [|fuel IH]; intros s Hs; [reflexivity|].
  destruct s as [|c s]; [reflexivity|].
  cbn [replaceAll].
  destruct (exec numberRe (String c s)) as [[m rest]|] eqn:E.
  - apply exec_numberRe_has_digit in E. congruence.
  - cbn [has_digit] in Hs. apply orb_false_iff in Hs as [_ Hs].
    now rewrite IH.
Qed.

(** X18: a path string without a decimal digit comes back from
    [#scaleDString] as it went in, whatever the scale: the pattern
    matches nowhere, and signs, points, commands and white space are
    copied. *)
Theorem scaleDString_without_digits (d : string) (k : num) :
  has_digit d = false -> scaleDString d k = d.
Proof. intros H. unfold scaleDString. now apply replaceAll_no_digit. Qed.

Lemma eqb_nonempty (c : ascii) (s : string) (b : bool) :
  (String.eqb (String c s) EmptyString && b)%bool = false.
Proof. reflexivity. Qed.

Lemma span_digits_digit (c : ascii) (t : string) :
  is_digit c = true ->
  span_digits (String c t) =
  (String c (fst (span_digits t)), snd (span_digits t)).
Proof.
  intros Hd. cbn [span_digits]. rewrite Hd. now destruct (span_digits t).
Qed.

Lemma span_digits_other (c : ascii) (t : string) :
  is_digit c = false -> span_digits (String c t) = (EmptyString, String c t).
Proof. intros Hd. cbn [span_digits]. now rewrite Hd. Qed.

(** What [parseFloat] reads after the sign. *)
Lemma unsigned_digit_parses (sg : Z) (c : ascii) (t : string) :
  is_digit c = true ->
  (let '(ip, s2) := span_digits (String c t) in
   let '(fp, s3) :=
     match s2 with
     | String "."%char u => span_digits u
     | _ => (EmptyString, s2)
     end in
   if (String.eqb ip EmptyString && String.eqb fp EmptyString)%bool then NaN
   else Fin (norm (sg * digits_val 0 (ip +:+ fp)) (exponent_part s3 - slen fp)))
  <> NaN.
Proof.
  intros Hd. rewrite (span_digits_digit c t Hd).
  destruct (match snd (span_digits t) with
            | String "."%char u => span_digits u
            | _ => (EmptyString, snd (span_digits t))
            end) as [fp s3].
  rewrite eqb_nonempty. discriminate.
Qed.

Lemma unsigned_point_digit_parses (sg : Z) (c : ascii) (t : string) :
  is_digit c = true ->
  (let '(ip, s2) := span_digits (String "." (String c t)) in
   let '(fp, s3) :=
     match s2 with
     | String "."%char u => span_digits u
     | _ => (EmptyString, s2)
     end in
   if (String.eqb ip EmptyString && String.eqb fp EmptyString)%bool then NaN
   else Fin (norm (sg * digits_val 0 (ip +:+ fp)) (exponent_part s3 - slen fp)))
  <> NaN.
Proof.
  intros Hd. rewrite span_digits_other by reflexivity.
  cbv iota beta. rewrite (span_digits_digit c t Hd).
  cbn [String.eqb andb]. discriminate.
Qed.

Lemma parseFloat_unsigned (c : ascii) (t : string) :
  is_digit c = true \/ c = "."%char ->
  parseFloat (String c t) =
  (let '(ip, s2) := span_digits (String c t) in
   let '(fp, s3) :=
     match s2 with
     | String "."%char u => span_digits u
     | _ => (EmptyString, s2)
     end in
   if (String.eqb ip EmptyString && String.eqb fp EmptyString)%bool then NaN
   else Fin (norm (1 * digits_val 0 (ip +:+ fp)) (exponent_part s3 - slen fp))).
Proof.
  intros [Hd| ->]; [|reflexivity].
  destruct c as [[] [] [] [] [] [] [] []]; try discriminate Hd; reflexivity.
Qed.

(** The tail of the number pattern, after the sign: digits, or a point
    and digits, come first. *)
Lemma matches_unsigned_shape (m : string) :
  matches (tl numberRe) m ->
  exists c t, is_digit c = true /\
    (m = String c t \/ m = String "." (String c t)).
Proof.
  cbn [tl numberRe]. intros H. inversion H; subst.
  - match goal with H' : matches (Opt _ :: _) _ |- _ => inversion H'; subst end.
    + match goal with H' : matches [Plus _] _ |- _ => inversion H'; subst end.
      eauto.
    + match goal with H' : matches [Plus _] _ |- _ => inversion H'; subst end.
      match goal with H' : Ascii.eqb "." ?c = true |- _ =>
        apply Ascii.eqb_eq in H'; subst end.
      eauto.
  - eauto.
Qed.

Lemma parseFloat_of_match (m : string) :
  matches numberRe m -> parseFloat m <> NaN.
Proof.
  intros H. unfold numberRe in H. inversion H; subst.
  - match goal with H' : matches _ m |- _ =>
      apply matches_unsigned_shape in H' as (c & t & Hd & [-> | ->]) end.
    + rewrite parseFloat_unsigned by auto. now apply unsigned_digit_parses.
    + rewrite parseFloat_unsigned by auto. now apply unsigned_point_digit_parses.
  - match goal with H' : Ascii.eqb "-" ?c = true |- _ =>
      apply Ascii.eqb_eq in H'; subst end.
    match goal with H' : matches _ _ |- _ =>
      apply matches_unsigned_shape in H' as (c & t & Hd & [-> | ->]) end.
    + change (parseFloat (String "-" (String c t))) with
        (let '(ip, s2) := span_digits (String c t) in
         let '(fp, s3) :=
           match s2 with
           | String "."%char u => span_digits u
           | _ => (EmptyString, s2)
           end in
         if (String.eqb ip EmptyString && String.eqb fp EmptyString)%bool then NaN
         else Fin (norm (-1 * digits_val 0 (ip +:+ fp)) (exponent_part s3 - slen fp))).
      now apply unsigned_digit_parses.
    + change (parseFloat (String "-" (String "." (String c t)))) with
        (let '(ip, s2) := span_digits (String "." (String c t)) in
         let '(fp, s3) :=
           match s2 with
           | String "."%char u => span_digits u
           | _ => (EmptyString, s2)
           end in
         if (String.eqb ip EmptyString && String.eqb fp EmptyString)%bool then NaN
         else Fin (norm (-1 * digits_val 0 (ip +:+ fp)) (exponent_part s3 - slen fp))).
      now apply unsigned_point_digit_parses.
Qed.

(** X19: the callback of [#scaleDString] never gets [NaN] from
    [parseFloat]: every piece of the path string that the number
    pattern matches and the replace rewrites reads as a number. *)
Theorem scaleDString_parses_every_match (d m : string) :
  m ∈ literals d -> parseFloat m <> NaN.
Proof.
  unfold literals, pieces. intros Hin.
  apply list_elem_of_omap in Hin as ([m'|c] & Hin & E); [|discriminate].
  inversion E; subst; clear E.
  destruct (pieces_fuel_spec (fun n => toString (mul (parseFloat n) (of_Z 1)))
              (of_Z 1) (S (String.length d)) (fun _ => eq_refl) d
              ltac:(lia)) as (_ & _ & Hok).
  rewrite Forall_forall in Hok. apply Hok in Hin.
  now apply parseFloat_of_match.
Qed.

(** ** The further properties at concrete inputs, continued *)

(** The demo page without paths: the cache is empty. *)
Lemma calcCenterOffsets_no_vertices_witness :
  exists st,
    Demo.built (Demo.demoPage []) "#container" "svg" noOverrides = Some st /\
    concat (map sh_hull (shapeCache (self st))) = [] /\
    calcCenterOffsets (self st) = (NaN, NaN).
Proof.
  eexists. split; [reflexivity|]. split; [reflexivity|].
  apply calcCenterOffsets_no_vertices. reflexivity.
Defined.

(** Merging into an empty object, and into [null]. *)
Lemma deepMerge_throws_only_on_nullish_target_witness :
  JSValue.defined (JSValue.JObj []) /\
  (exists r,
     JSValue.deepMerge (JSValue.JObj []) (JSValue.JObj [("a", JSValue.JObj [])])
     = Ok r) /\
  exists msg,
    JSValue.deepMerge JSValue.JNull (JSValue.JObj [("a", JSValue.JObj [])])
    = Throw (TypeError msg).
Proof.
  destruct DeepMergeProps.deepMerge_throws_only_on_nullish_target as [Hok Hthrow].
  assert (Hd : JSValue.defined (JSValue.JObj [])) by (split; discriminate).
  split; [exact Hd|]. split.
  - apply Hok. exact Hd.
  - apply Hthrow; [now left|]. eexists _, _. apply list_elem_of_here.
Defined.

(** The override [{debug: {devMode: true}, scale: 2}] merged into
    [{scale: 1, debug: {devMode: false, showBoundingBoxes: false}}]. *)
Lemma deepMerge_by_key_witness :
  let target :=
    JSValue.JObj [("scale", JSValue.JNum (of_Z 1));
                  ("debug", JSValue.JObj [("devMode", JSValue.JBool false);
                                          ("showBoundingBoxes", JSValue.JBool false)])] in
  let props := [("debug", JSValue.JObj [("devMode", JSValue.JBool true)]);
                ("scale", JSValue.JNum (of_Z 2))] in
  NoDup (map fst props) /\
  exists r out,
    JSValue.deepMerge target (JSValue.JObj props) = Ok r /\
    r = JSValue.JObj out /\
    JSValue.lookup_field "scale" out = Some (JSValue.JNum (of_Z 2)).
Proof.
  cbn zeta.
  assert (Hnd : NoDup (map fst
            [("debug", JSValue.JObj [("devMode", JSValue.JBool true)]);
             ("scale", JSValue.JNum (of_Z 2))])).
  { apply (bool_decide_unpack _). vm_compute. exact I. }
  split; [exact Hnd|].
  edestruct (DeepMergeProps.deepMerge_by_key
    (JSValue.JObj [("scale", JSValue.JNum (of_Z 1));
                   ("debug", JSValue.JObj [("devMode", JSValue.JBool false);
                                           ("showBoundingBoxes", JSValue.JBool false)])]))
    as (out & Hr & Hkeys); [exact Hnd|vm_compute; reflexivity|].
  eexists _, out. split; [reflexivity|]. split; [exact Hr|].
  destruct (Hkeys "scale") as (_ & Hval & _). apply Hval; reflexivity.
Defined.

(** Two calls in a row with the delay 100: the timer of the second is
    the one pending. *)
Lemma debounce_one_timer_witness :
  let s := Debounce.drun 100 [Debounce.DCall 1; Debounce.DCall 2] in
  exists tm : Debounce.timer Z,
    Debounce.timers s = [tm] /\
    Debounce.t s = Some (Debounce.tid tm) /\
    Debounce.delay tm = 100 /\ Debounce.targs tm = 2.
Proof.
  cbn zeta.
  destruct (DebounceProps.debounce_one_timer 100
              [Debounce.DCall 1; Debounce.DCall 2]) as (_ & Hpending & _).
  eexists. split; [reflexivity|].
  edestruct Hpending as (Ht & Hd & Hl); [apply list_elem_of_here|].
  split; [exact Ht|]. split; [exact Hd|]. reflexivity.
Defined.

(** The booted demo instance: both pairs are drawn. *)
Lemma draw_covers_every_pair_witness :
  exists st,
    Demo.booted = Some st /\
    length (bodies (self st)) = 2%nat /\
    length (Canvas.livePairs st) = length (bodies (self st)).
Proof.
  eexists. split; [reflexivity|]. split; [reflexivity|].
  apply (CanvasProps.draw_covers_every_pair (M := Demo.demoMatter)
           (Demo.demoPage [Demo.pathA; Demo.pathB; Demo.pathC])
           "#container" "svg" Demo.devModeOn).
  apply (reach_run (M := Demo.demoMatter) _ _ _ _ (Deliver EvSetup)).
  apply reach_new. reflexivity.
Defined.

(** The demo page with a second path that has no [d]. *)
Lemma construct_path_without_d_witness :
  let pg := Demo.demoPage [Demo.pathA; {| attr_d := None; attr_fill := None |}] in
  Exists (fun el => attr_d el = None) (paths (elementAt (doc pg) 1)) /\
  exists msg,
    construct (M := Demo.demoMatter) pg "#container" "svg" noOverrides =
    (pg, Throw (TypeError msg)).
Proof.
  cbn zeta.
  assert (He : Exists (fun el => attr_d el = None)
                 (paths (elementAt
                    (doc (Demo.demoPage
                       [Demo.pathA; {| attr_d := None; attr_fill := None |}])) 1))).
  { apply Exists_cons_tl, Exists_cons_hd. reflexivity. }
  split; [exact He|].
  apply (construct_path_without_d (M := Demo.demoMatter) _ _ _ _ 0%nat 1%nat);
    [reflexivity|reflexivity|exact He].
Defined.

(** The demo page with its three paths. *)
Lemma construct_shape_cache_witness :
  exists pg' i,
    construct (M := Demo.demoMatter)
      (Demo.demoPage [Demo.pathA; Demo.pathB; Demo.pathC])
      "#container" "svg" Demo.devModeOn = (pg', Ok i) /\
    length (shapeCache i) = 3%nat /\
    config i = deepMerge defaultConfig Demo.devModeOn.
Proof.
  destruct (construct (M := Demo.demoMatter)
              (Demo.demoPage [Demo.pathA; Demo.pathB; Demo.pathC])
              "#container" "svg" Demo.devModeOn) as [pg' [i|e]] eqn:E.
  - exists pg', i. split; [reflexivity|].
    destruct (construct_shape_cache (M := Demo.demoMatter) _ _ _ _ _ _ E)
      as [Hc Hm].
    split; [|exact Hc]. apply Forall2_length in Hm. now rewrite <- Hm.
  - vm_compute in E. discriminate.
Defined.

(** The booted demo instance: the floor, at the address 2. *)
Lemma walls_stay_static_witness :
  exists st,
    Demo.booted = Some st /\
    2%nat ∈ walls (self st) /\
    exists b, heap (page st) !! 2%nat = Some b /\ isStatic b = true.
Proof.
  eexists. split; [reflexivity|].
  assert (Hw : 2%nat ∈ [2; 3; 4]%nat) by apply list_elem_of_here.
  split; [exact Hw|].
  eapply (walls_stay_static (M := Demo.demoMatter)
            (Demo.demoPage [Demo.pathA; Demo.pathB; Demo.pathC])
            "#container" "svg" Demo.devModeOn).
  - apply (reach_run (M := Demo.demoMatter) _ _ _ _ (Deliver EvSetup)).
    apply reach_new. reflexivity.
  - exact Hw.
Defined.

(** The booted demo instance after the key [b]; and the demo page
    without overrides (dev mode is off by default), set up. *)
Lemma config_fixed_but_boxes_witness :
  (exists st,
     option_map (Demo.runs [Deliver (EvKeydown "b")]) Demo.booted = Some st /\
     showBoundingBoxes (debug (config (self st))) = true /\
     same_but_boxes (deepMerge defaultConfig Demo.devModeOn) (config (self st))) /\
  (exists st,
     option_map (Demo.runs [Deliver EvSetup; Deliver (EvKeydown "b")])
       (Demo.built (Demo.demoPage [Demo.pathA]) "#container" "svg" noOverrides)
       = Some st /\
     keydown (Demo.demoPage [Demo.pathA]) = [] /\
     devMode (debug (deepMerge defaultConfig noOverrides)) = false /\
     config (self st) = deepMerge defaultConfig noOverrides).
Proof.
  split.
  - eexists. split; [reflexivity|]. split; [reflexivity|].
    eapply (config_fixed_but_boxes (M := Demo.demoMatter)
              (Demo.demoPage [Demo.pathA; Demo.pathB; Demo.pathC])
              "#container" "svg" Demo.devModeOn).
    apply (reach_run (M := Demo.demoMatter) _ _ _ _ (Deliver (EvKeydown "b"))).
    apply (reach_run (M := Demo.demoMatter) _ _ _ _ (Deliver EvSetup)).
    apply reach_new. reflexivity.
  - eexists. split; [reflexivity|]. split; [reflexivity|]. split; [reflexivity|].
    eapply (config_fixed_but_boxes (M := Demo.demoMatter)
              (Demo.demoPage [Demo.pathA]) "#container" "svg" noOverrides).
    + apply (reach_run (M := Demo.demoMatter) _ _ _ _ (Deliver (EvKeydown "b"))).
      apply (reach_run (M := Demo.demoMatter) _ _ _ _ (Deliver EvSetup)).
      apply reach_new. reflexivity.
    + reflexivity.
    + reflexivity.
Defined.


(** The script on the demo page: [p], a frame, [p], [p], the unload. *)
Lemma app_flag_tracks_runner_witness :
  exists a0,
    App.onLoad (M := Demo.demoMatter)
      (Demo.demoPage [Demo.pathA; Demo.pathB; Demo.pathC]) (of_Z 1) = Ok a0 /\
    let a := App.steps (M := Demo.demoMatter)
               [App.Browser (EvKeydown "p"); App.Browser EvFrame;
                App.Browser (EvKeydown "p"); App.Browser (EvKeydown "p");
                App.Beforeunload] a0 in
    App.isPaused a = true /\
    running (runner (self (App.physics_ a))) = false /\
    App.console a = ["Physics paused"; "Physics resumed"; "Physics paused"].
Proof.
  eexists. split; [reflexivity|].
  exact (AppProps.app_flag_tracks_runner (M := Demo.demoMatter)
           (Demo.demoPage [Demo.pathA; Demo.pathB; Demo.pathC]) (of_Z 1) _
           [App.Browser (EvKeydown "p"); App.Browser EvFrame;
            App.Browser (EvKeydown "p"); App.Browser (EvKeydown "p");
            App.Beforeunload] eq_refl).
Defined.

(** A path of commands only. *)
Lemma scaleDString_without_digits_witness :
  has_digit "M -.z" = false /\ scaleDString "M -.z" (of_Z 2) = "M -.z".
Proof.
  split; [reflexivity|]. apply scaleDString_without_digits. reflexivity.
Defined.

(** The second literal of ["M10-.5z"]. *)
Lemma scaleDString_parses_every_match_witness :
  literals "M10-.5z" = ["10"; "-.5"] /\ parseFloat "-.5" <> NaN.
Proof.
  assert (Hl : literals "M10-.5z" = ["10"; "-.5"]) by (vm_compute; reflexivity).
  split; [exact Hl|].
  apply (scaleDString_parses_every_match "M10-.5z").
  rewrite Hl. apply list_elem_of_further, list_elem_of_here.
Defined.
